(** * The streamed chat reply assembler of [src/pages/Chat.tsx]

    A shallow embedding of [handleSend] (Chat.tsx, lines 92-181): the guard,
    the user's turn, the status check, the read loop over the response
    body, the line loop over [textBuffer], the [JSON.parse] of each
    [data: ] payload, the navigation to [choices[0].delta.content], the
    [setMessages] updaters that fold the deltas into the transcript, and
    the [catch] that appends the error turn.

    - Text is modelled as JavaScript has it: a string is a sequence of
      UTF-16 code units, here a [list N].
    - A chunk of the response is the text that
      [decoder.decode(value, { stream: true })] returns for one
      [reader.read()]; the decoder keeps the bytes of a character cut by a
      chunk boundary for the next call, so the chunks of text of a body
      join to the same text however its bytes were chunked.
    - [JSON.parse] is written out (lexer and parser of the JSON grammar),
      with numbers kept as lexemes: what a number prints as is a variable
      of the section [Engine], with the clock and the texts of the
      engine's own error messages.
    - The React state [messages] is threaded explicitly: an updater passed
      to [setMessages] is applied to the transcript in the order of the
      calls. The other state [handleSend] sets ([input], [attachedFile],
      [isLoading]) is given to each call: no part of the transcript
      depends on what the call sets it to.

    Around [handleSend], the file also embeds the [messages] of the request
    it sends (lines 95-116), the conditions under which the page shows
    [Thinking...] and disables the send button (lines 210, 256), the branch
    of [parsePortfolioFile] for [.csv] files (lines 51-66), and, of
    [src/pages/BeliefGraph.tsx], the counting part of [layoutNodes] and the
    colours picked by confidence. *)

From Stdlib Require Import Bool Ascii String List NArith Arith QArith Lia.
Import ListNotations.
Set Warnings "-register-all".
Local Open Scope N_scope.
Local Open Scope list_scope.

(** ** JavaScript strings *)

Definition jsstring := list N.

(** [lit] reads a literal of this file as a JavaScript string, one code unit
    per character. *)
Definition lit (s : string) : jsstring :=
  map N_of_ascii (list_ascii_of_string s).

(** [qlit] is [lit] for literals that hold JSON text: an apostrophe of the
    literal stands for the double quote (code unit 34) of the text. *)
Definition qlit (s : string) : jsstring :=
  map (fun c => if c =? 39 then 34 else c) (lit s).

Definition LF : N := 10.
Definition CR : N := 13.

Fixpoint str_eqb (a b : jsstring) : bool :=
  match a, b with
  | [], [] => true
  | x :: a', y :: b' => (x =? y) && str_eqb a' b'
  | _, _ => false
  end.

(** [s.startsWith(p)] *)
Fixpoint startsWith (s p : jsstring) : bool :=
  match p, s with
  | [], _ => true
  | x :: p', y :: s' => (x =? y) && startsWith s' p'
  | _ :: _, [] => false
  end.

(** [s.endsWith(p)] *)
Definition endsWith (s p : jsstring) : bool :=
  startsWith (rev s) (rev p).

(** [s.indexOf(c)] for a one-unit pattern; [None] is JavaScript's [-1]. *)
Fixpoint indexOf (s : jsstring) (c : N) : option nat :=
  match s with
  | [] => None
  | x :: s' =>
      if x =? c then Some O
      else match indexOf s' c with
           | Some i => Some (S i)
           | None => None
           end
  end.

(** [s.slice(0, -1)] *)
Definition drop_last (s : jsstring) : jsstring := removelast s.

(** The code units [String.prototype.trim] strips: ECMAScript's WhiteSpace
    and LineTerminator. *)
Definition is_js_space (c : N) : bool :=
  ((9 <=? c) && (c <=? 13)) || (c =? 32) || (c =? 160) || (c =? 5760)
  || ((8192 <=? c) && (c <=? 8202)) || (c =? 8232) || (c =? 8233)
  || (c =? 8239) || (c =? 8287) || (c =? 12288) || (c =? 65279).

Fixpoint trim_start (s : jsstring) : jsstring :=
  match s with
  | c :: s' => if is_js_space c then trim_start s' else s
  | [] => []
  end.

(** [s.trim()] *)
Definition trim (s : jsstring) : jsstring :=
  rev (trim_start (rev (trim_start s))).

(** Decimal digits of a non-negative integer, as [Number.prototype.toString]
    prints one below 10^21; the fuel bounds the number of digits. *)
Fixpoint decimal_fuel (fuel : nat) (n : N) (acc : jsstring) : jsstring :=
  match fuel with
  | O => acc
  | S f =>
      let acc' := (48 + n mod 10) :: acc in
      if n / 10 =? 0 then acc' else decimal_fuel f (n / 10) acc'
  end.

Definition decimal (n : N) : jsstring :=
  decimal_fuel (S (N.to_nat (N.log2 n))) n [].

(** ** JSON values and [JSON.parse] *)

(** A number keeps its lexeme: its value is the IEEE-754 double nearest to
    it, which is not computed here. *)
Inductive json : Type :=
| JNull
| JBool (b : bool)
| JNumber (lexeme : jsstring)
| JString (s : jsstring)
| JArray (items : list json)
| JObject (members : list (jsstring * json)).

Inductive token : Type :=
| TLBrace | TRBrace | TLBracket | TRBracket | TColon | TComma
| TString (s : jsstring)
| TNumber (lexeme : jsstring)
| TTrue | TFalse | TNull.

(** Where the lexer stands inside a number. The JSON grammar of one: an
    optional minus; a zero, or a digit from 1 to 9 and any digits; then
    optionally a dot and one digit or more; then optionally e or E, an
    optional sign and one digit or more. *)
Inductive num_state : Type :=
| NMinus | NZero | NInt | NDot | NFrac | NExp | NExpSign | NExpDigits.

Definition num_final (n : num_state) : bool :=
  match n with
  | NZero | NInt | NFrac | NExpDigits => true
  | _ => false
  end.

Definition is_digit (c : N) : bool := (48 <=? c) && (c <=? 57).

Definition is_e (c : N) : bool := (c =? 101) || (c =? 69).

Definition num_step (n : num_state) (c : N) : option num_state :=
  match n with
  | NMinus =>
      if c =? 48 then Some NZero else if is_digit c then Some NInt else None
  | NZero =>
      if c =? 46 then Some NDot else if is_e c then Some NExp else None
  | NInt =>
      if is_digit c then Some NInt
      else if c =? 46 then Some NDot else if is_e c then Some NExp else None
  | NDot => if is_digit c then Some NFrac else None
  | NFrac =>
      if is_digit c then Some NFrac else if is_e c then Some NExp else None
  | NExp =>
      if (c =? 43) || (c =? 45) then Some NExpSign
      else if is_digit c then Some NExpDigits else None
  | NExpSign => if is_digit c then Some NExpDigits else None
  | NExpDigits => if is_digit c then Some NExpDigits else None
  end.

Definition hex_val (c : N) : option N :=
  if is_digit c then Some (c - 48)
  else if (97 <=? c) && (c <=? 102) then Some (c - 87)
  else if (65 <=? c) && (c <=? 70) then Some (c - 55)
  else None.

(** The lexer reads one code unit at a time. Accumulators are reversed. *)
Inductive lex_state : Type :=
| LIdle
| LStr (acc : jsstring)
| LEsc (acc : jsstring)
| LHex (acc : jsstring) (k : nat) (v : N)
| LLit (rest : jsstring) (t : token)
| LNum (n : num_state) (acc : jsstring).

Definition idle_step (c : N) : option (list token * lex_state) :=
  if (c =? 9) || (c =? 10) || (c =? 13) || (c =? 32) then Some ([], LIdle)
  else if c =? 123 then Some ([TLBrace], LIdle)
  else if c =? 125 then Some ([TRBrace], LIdle)
  else if c =? 91 then Some ([TLBracket], LIdle)
  else if c =? 93 then Some ([TRBracket], LIdle)
  else if c =? 58 then Some ([TColon], LIdle)
  else if c =? 44 then Some ([TComma], LIdle)
  else if c =? 34 then Some ([], LStr [])
  else if c =? 45 then Some ([], LNum NMinus [c])
  else if c =? 48 then Some ([], LNum NZero [c])
  else if is_digit c then Some ([], LNum NInt [c])
  else if c =? 116 then Some ([], LLit (lit "rue") TTrue)
  else if c =? 102 then Some ([], LLit (lit "alse") TFalse)
  else if c =? 110 then Some ([], LLit (lit "ull") TNull)
  else None.

Definition lex_step (st : lex_state) (c : N)
  : option (list token * lex_state) :=
  match st with
  | LIdle => idle_step c
  | LStr acc =>
      if c =? 34 then Some ([TString (rev acc)], LIdle)
      else if c =? 92 then Some ([], LEsc acc)
      else if c <? 32 then None
      else Some ([], LStr (c :: acc))
  | LEsc acc =>
      if (c =? 34) || (c =? 92) || (c =? 47) then Some ([], LStr (c :: acc))
      else if c =? 98 then Some ([], LStr (8 :: acc))
      else if c =? 102 then Some ([], LStr (12 :: acc))
      else if c =? 110 then Some ([], LStr (10 :: acc))
      else if c =? 114 then Some ([], LStr (13 :: acc))
      else if c =? 116 then Some ([], LStr (9 :: acc))
      else if c =? 117 then Some ([], LHex acc 4 0)
      else None
  | LHex acc k v =>
      match hex_val c, k with
      | Some d, 1%nat => Some ([], LStr ((v * 16 + d) :: acc))
      | Some d, S k' => Some ([], LHex acc k' (v * 16 + d))
      | _, _ => None
      end
  | LLit rest t =>
      match rest with
      | r :: rest' =>
          if c =? r
          then match rest' with
               | [] => Some ([t], LIdle)
               | _ :: _ => Some ([], LLit rest' t)
               end
          else None
      | [] => None
      end
  | LNum n acc =>
      match num_step n c with
      | Some n' => Some ([], LNum n' (c :: acc))
      | None =>
          if num_final n
          then match idle_step c with
               | Some (ts, st') => Some (TNumber (rev acc) :: ts, st')
               | None => None
               end
          else None
      end
  end.

Definition lex_end (st : lex_state) : option (list token) :=
  match st with
  | LIdle => Some []
  | LNum n acc => if num_final n then Some [TNumber (rev acc)] else None
  | _ => None
  end.

Fixpoint lex_from (st : lex_state) (s : jsstring) : option (list token) :=
  match s with
  | [] => lex_end st
  | c :: s' =>
      match lex_step st c with
      | None => None
      | Some (ts, st') =>
          match lex_from st' s' with
          | None => None
          | Some rest => Some (ts ++ rest)
          end
      end
  end.

(** The parser is a stack machine over the tokens: a frame is a container
    being read, its members so far in reverse. *)
Inductive frame : Type :=
| FArr (acc : list json)
| FObj (acc : list (jsstring * json))
| FObjKey (acc : list (jsstring * json)) (key : jsstring).

Inductive pmode : Type :=
| MValue          (* a value must come *)
| MArrFirst       (* after an opening bracket: a value or the close *)
| MObjFirst       (* after an opening brace: a key or the close *)
| MKey            (* after a comma in an object *)
| MColon          (* after a key *)
| MAfter          (* after a value inside a container *)
| MDone (v : json).

Definition push_value (v : json) (stk : list frame)
  : option (pmode * list frame) :=
  match stk with
  | [] => Some (MDone v, [])
  | FArr acc :: r => Some (MAfter, FArr (v :: acc) :: r)
  | FObjKey acc k :: r => Some (MAfter, FObj ((k, v) :: acc) :: r)
  | FObj _ :: _ => None
  end.

Definition value_step (first : bool) (stk : list frame) (t : token)
  : option (pmode * list frame) :=
  match t with
  | TString s => push_value (JString s) stk
  | TNumber l => push_value (JNumber l) stk
  | TTrue => push_value (JBool true) stk
  | TFalse => push_value (JBool false) stk
  | TNull => push_value JNull stk
  | TLBracket => Some (MArrFirst, FArr [] :: stk)
  | TLBrace => Some (MObjFirst, FObj [] :: stk)
  | TRBracket =>
      match first, stk with
      | true, FArr acc :: r => push_value (JArray (rev acc)) r
      | _, _ => None
      end
  | _ => None
  end.

Definition key_step (first : bool) (stk : list frame) (t : token)
  : option (pmode * list frame) :=
  match t, stk with
  | TString k, FObj acc :: r => Some (MColon, FObjKey acc k :: r)
  | TRBrace, FObj acc :: r =>
      if first then push_value (JObject (rev acc)) r else None
  | _, _ => None
  end.

Definition parse_step (m : pmode) (stk : list frame) (t : token)
  : option (pmode * list frame) :=
  match m with
  | MValue => value_step false stk t
  | MArrFirst => value_step true stk t
  | MObjFirst => key_step true stk t
  | MKey => key_step false stk t
  | MColon => match t with TColon => Some (MValue, stk) | _ => None end
  | MAfter =>
      match t, stk with
      | TComma, FArr _ :: _ => Some (MValue, stk)
      | TComma, FObj _ :: _ => Some (MKey, stk)
      | TRBracket, FArr acc :: r => push_value (JArray (rev acc)) r
      | TRBrace, FObj acc :: r => push_value (JObject (rev acc)) r
      | _, _ => None
      end
  | MDone _ => None
  end.

Fixpoint parse_tokens (m : pmode) (stk : list frame) (ts : list token)
  : option json :=
  match ts with
  | [] => match m with MDone v => Some v | _ => None end
  | t :: ts' =>
      match parse_step m stk t with
      | Some (m', stk') => parse_tokens m' stk' ts'
      | None => None
      end
  end.

(** [JSON.parse(text)]; [None] is the [SyntaxError] it throws. *)
Definition JSON_parse (text : jsstring) : option json :=
  match lex_from LIdle text with
  | Some ts => parse_tokens MValue [] ts
  | None => None
  end.

(** ** Reading the delta out of a parsed payload *)

(** An own property of an object built by [JSON.parse]: of two members with
    one key the later wins. [None] is [undefined]. *)
Fixpoint own_property (ms : list (jsstring * json)) (k : jsstring)
  : option json :=
  match ms with
  | [] => None
  | (k', v) :: ms' =>
      match own_property ms' k with
      | Some w => Some w
      | None => if str_eqb k' k then Some v else None
      end
  end.

(** [v.k] where [v] is neither [null] nor [undefined] and [k] is one of
    [choices], [delta], [content], [error]: no prototype of a parsed value
    has a property of these names, so only an object's own member answers. *)
Definition get_named (v : json) (k : jsstring) : option json :=
  match v with
  | JObject ms => own_property ms k
  | _ => None
  end.

(** [v[0]] where [v] is neither [null] nor [undefined]: the first item of
    an array, the first code unit of a string, the member ["0"] of an
    object. *)
Definition get_first (v : json) : option json :=
  match v with
  | JArray (x :: _) => Some x
  | JString (c :: _) => Some (JString [c])
  | JObject ms => own_property ms (lit "0")
  | _ => None
  end.

(** [o?.f]: [undefined] when [o] is [undefined] or [null]. *)
Definition optional (o : option json) (f : json -> option json)
  : option json :=
  match o with
  | None | Some JNull => None
  | Some v => f v
  end.

(** [parsed.choices?.[0]?.delta?.content] (line 155). The outer [None] is
    the [TypeError] of reading [choices] off [null]; the inner one is
    [undefined]. *)
Definition delta_content (parsed : json) : option (option json) :=
  match parsed with
  | JNull => None
  | _ =>
      Some (optional
              (optional
                 (optional (get_named parsed (lit "choices")) get_first)
                 (fun v => get_named v (lit "delta")))
              (fun v => get_named v (lit "content")))
  end.

(** ** The transcript *)

Inductive Role : Type := user | assistant.

Definition Role_eqb (a b : Role) : bool :=
  match a, b with
  | user, user | assistant, assistant => true
  | _, _ => false
  end.

(** [interface Message] (lines 12-16). *)
Record Message : Type := mkMessage {
  id : jsstring;
  role : Role;
  content : jsstring
}.

(** [prev[prev.length - 1]] *)
Definition last_message (prev : list Message) : option Message :=
  nth_error prev (length prev - 1).

(** [l.map((m, i) => f m i)] *)
Fixpoint map_indexed {A B : Type} (f : A -> nat -> B) (i : nat) (l : list A)
  : list B :=
  match l with
  | [] => []
  | m :: l' => f m i :: map_indexed f (S i) l'
  end.

(** The variables of one [handleSend] call that the read loop changes, and
    the number of readings of the clock taken so far. *)
Record Session : Type := mkSession {
  textBuffer : jsstring;
  assistantSoFar : jsstring;
  messages : list Message;
  ticks : nat
}.

Definition set_textBuffer (b : jsstring) (st : Session) : Session :=
  mkSession b (assistantSoFar st) (messages st) (ticks st).

Definition set_assistantSoFar (a : jsstring) (st : Session) : Session :=
  mkSession (textBuffer st) a (messages st) (ticks st).

Inductive Ctl : Type := Continue | Break.

(** How the body of the response ends: [reader.read()] reports [done], or
    rejects with an error of the given [message]. *)
Inductive StreamEnd : Type :=
| EndOfStream
| ReadError (message : jsstring).

(** What [fetch] gives: a rejection, or a response with its status and its
    body ([None]: [resp.body] is [null]), the body being the chunks of text
    decoded from it and how it ends. *)
Inductive FetchResult : Type :=
| FetchRejected (message : jsstring)
| FetchResponse (status : N) (body : option (list jsstring * StreamEnd)).

(** [attachedFile] (line 33). *)
Record Attachment : Type := mkAttachment {
  name : jsstring;
  data : jsstring
}.

(** ** The portfolio file

    [parsePortfolioFile] (lines 43-77) on a file whose name ends in [.csv]:
    the text [readAsText] hands over is cut into rows and cells (line 53),
    the rows with nothing in them are dropped and the others are laid out
    for the request (lines 61-66). The other branch (lines 55-57) goes
    through the [xlsx] library and is not part of this file. *)

(** [s.split(sep)] for a separator of one code unit: the pieces between
    the separators, one more than there are separators. [cur] is the piece
    being read, reversed. *)
Fixpoint split_from (sep : N) (cur s : jsstring) : list jsstring :=
  match s with
  | [] => [rev cur]
  | c :: s' =>
      if c =? sep then rev cur :: split_from sep [] s'
      else split_from sep (c :: cur) s'
  end.

Definition split (s : jsstring) (sep : N) : list jsstring :=
  split_from sep [] s.

(** [l.join(sep)] over strings. *)
Fixpoint join_with (sep : jsstring) (l : list jsstring) : jsstring :=
  match l with
  | [] => []
  | x :: r =>
      match r with
      | [] => x
      | _ :: _ => x ++ sep ++ join_with sep r
      end
  end.

Definition COMMA : N := 44.
Definition QUOTE : N := 34.

(** [c.replace(/QUOTE/g, '')]: every double quote taken out. *)
Definition strip_quotes (c : jsstring) : jsstring :=
  filter (fun u => negb (u =? QUOTE)) c.

(** The cells of one row (line 53): cut at the commas, each piece trimmed
    and then freed of its quotes. *)
Definition csv_cells (row : jsstring) : list jsstring :=
  map (fun c => strip_quotes (trim c)) (split row COMMA).

(** [rows] of line 53. *)
Definition csv_rows (text : jsstring) : list (list jsstring) :=
  map csv_cells (split text LF).

(** [cell && String(cell).trim()] of line 62, as [ToBoolean] reads it. *)
Definition cell_filled (cell : jsstring) : bool :=
  negb (str_eqb cell []) && negb (str_eqb (trim cell) []).

(** [formatted] of lines 61-64. *)
Definition formatted (rows : list (list jsstring)) : jsstring :=
  join_with [LF]
    (map (join_with (lit " | ")) (filter (existsb cell_filled) rows)).

(** What the promise of [parsePortfolioFile] resolves to (line 66) for the
    file [name] of text [text], [name] ending in [.csv]. *)
Definition parsePortfolioFile_csv (name text : jsstring) : jsstring :=
  lit "Portfolio file " ++ [QUOTE] ++ name ++ [QUOTE] ++ lit ":" ++ [LF]
    ++ formatted (csv_rows text).

(** The same text with every line ended the Windows way. *)
Definition crlf (text : jsstring) : jsstring :=
  flat_map (fun c => if c =? LF then [CR; LF] else [c]) text.

(** The code units a row with nothing in it is made of: white space,
    commas and double quotes. *)
Definition blank_unit (c : N) : bool :=
  is_js_space c || (c =? COMMA) || (c =? QUOTE).

(** ** The belief graph

    The layout and the colours of [src/pages/BeliefGraph.tsx]. *)

(** A place on a ring as [layoutNodes] computes it (lines 96-126): the
    point at the distance [ring_radius] from the centre (600, 400), at the
    angle [2 * PI * slot / ring_size - PI / 2], and [PI / ring_size] more
    when [staggered]. Its coordinates are what [Math.cos] and [Math.sin]
    give in floating point and are not computed here. *)
Record Place : Type := mkPlace {
  ring_radius : N;
  slot : N;
  ring_size : N;
  staggered : bool
}.

(** One [for] loop of [layoutNodes]: [n] places pushed. *)
Definition ring_places (radius n : N) (stag : bool) : list Place :=
  map (fun i => mkPlace radius (N.of_nat i) n stag) (seq 0 (N.to_nat n)).

(** [layoutNodes] (lines 87-129) for a count that is a length. *)
Definition layoutNodes (count : N) : list Place :=
  if count <=? 0 then []
  else if count <=? 6 then ring_places 300 count false
  else
    let innerCount := N.min 6 (count / 2) in
    let outerCount := count - innerCount in
    ring_places 220 innerCount false ++ ring_places 450 outerCount true.

(** [positions[i] || { x: 0, y: 0 }] (line 143). *)
Inductive NodePosition : Type :=
| OnRing (p : Place)
| Origin.

Definition node_position (positions : list Place) (i : nat) : NodePosition :=
  match nth_error positions i with
  | Some p => OnRing p
  | None => Origin
  end.

(** The [position] of each node of [initialNodes] (lines 138-151), the
    [positions] being those of line 136. *)
Definition initialNodes_positions {A : Type} (narratives : list A)
  : list NodePosition :=
  map_indexed
    (fun _ i =>
       node_position (layoutNodes (N.of_nat (length narratives))) i)
    0 narratives.

(** A JavaScript number, as far as a comparison with a literal and
    [ToBoolean] can tell: every finite double is a rational. *)
Inductive jsnumber : Type :=
| NaN
| Infinity (negative : bool)
| Finite (q : Q).

(** [c >= k] for an integer literal [k]. *)
Definition at_least (c : jsnumber) (k : Z) : bool :=
  match c with
  | NaN => false
  | Infinity negative => negb negative
  | Finite q => Qle_bool (inject_Z k) q
  end.

(** [ToBoolean] of a number: false for the zeros and for [NaN]. *)
Definition number_truthy (c : jsnumber) : bool :=
  match c with
  | NaN => false
  | Infinity _ => true
  | Finite q => negb (Qeq_bool q (inject_Z 0))
  end.

(** The three class names [NarrativeNode] picks by [confidence]
    (lines 33-49). *)
Definition bgGradient (confidence : jsnumber) : jsstring :=
  if at_least confidence 70 then lit "from-emerald-500/20 to-emerald-500/5"
  else if at_least confidence 40 then lit "from-amber-500/20 to-amber-500/5"
  else lit "from-red-500/20 to-red-500/5".

Definition borderColor (confidence : jsnumber) : jsstring :=
  if at_least confidence 70 then lit "border-emerald-500/40"
  else if at_least confidence 40 then lit "border-amber-500/40"
  else lit "border-red-500/40".

Definition confTextColor (confidence : jsnumber) : jsstring :=
  if at_least confidence 70 then lit "text-emerald-400"
  else if at_least confidence 40 then lit "text-amber-400"
  else lit "text-red-400".

(** [nodeColor] of the minimap (lines 280-283), for a node that has its
    [data]. *)
Definition nodeColor (confidence : jsnumber) : jsstring :=
  let c :=
    if number_truthy confidence then confidence
    else Finite (inject_Z 50) in
  if at_least c 70 then lit "#22c55e"
  else if at_least c 40 then lit "#f59e0b"
  else lit "#ef4444".

(** ** The page as it opens *)

(** The transcript the page opens with (lines 28-30). *)
Definition greeting : Message :=
  mkMessage (lit "1") assistant
    (lit "I'm your narrative intelligence assistant. Ask me about market beliefs, narrative conflicts, portfolio exposure, or what could break a thesis. You can also **upload a portfolio file** (CSV/XLSX) and I'll analyze its narrative exposure.").

(** One send of a conversation: the readings of the clock during it, what
    the input box and the attachment hold when it is made, and what the
    network gives it. *)
Record Send : Type := mkSend {
  clock : nat -> N;
  typed : jsstring;
  attached : option Attachment;
  network : FetchResult
}.

(** ** A data line with a delta

    The line a server sends for the delta [d]:
    [data: {"choices":[{"delta":{"content":"d"}}]}], for a [d] whose code
    units stand for themselves in a JSON string. *)

Definition plain (c : N) : bool :=
  (32 <=? c) && negb (c =? 34) && negb (c =? 92).

Definition payload_text (d : jsstring) : jsstring :=
  qlit "{'choices':[{'delta':{'content':'" ++ d ++ qlit "'}}]}".

Definition data_line (d : jsstring) : jsstring :=
  lit "data: " ++ payload_text d.

(** A delta a data line can carry as it is: not empty, every code unit
    plain. *)
Definition plain_delta (d : jsstring) : bool :=
  negb (str_eqb d []) && forallb plain d.

(** The lexer over a part of the text: the tokens it gives and the state it
    is left in. *)
Fixpoint lex_run (st : lex_state) (s : jsstring)
  : option (list token * lex_state) :=
  match s with
  | [] => Some ([], st)
  | c :: s' =>
      match lex_step st c with
      | None => None
      | Some (ts, st') =>
          match lex_run st' s' with
          | None => None
          | Some (ts', st'') => Some (ts ++ ts', st'')
          end
      end
  end.

(** An engine and a clock to run examples with: the messages are V8's, the
    clock ticks once a reading, and a number prints as it is written, which
    is how a plain integer prints. The streams of the examples hold no
    number. *)
Definition sample_Number_toString (lexeme : jsstring) : jsstring := lexeme.

Definition sample_null_read_message : jsstring :=
  lit "Cannot read properties of null (reading 'error')".

Definition sample_not_primitive_message : jsstring :=
  lit "Cannot convert object to primitive value".

Definition sample_Date_now (k : nat) : N := 1700000000000 + N.of_nat k.

Section Engine.

(** What the JavaScript engine and the clock contribute and this file leaves
    open: the text a number prints as (the shortest decimal that reads back
    as the same double), the messages of the two [TypeError]s the engine
    can raise here, and the readings of [Date.now()], in the order they are
    taken. *)
Variable Number_toString : jsstring -> jsstring.
Variable null_read_message : jsstring.
Variable not_primitive_message : jsstring.
Variable Date_now : nat -> N.

(** [ToBoolean]. A number is falsy when it is a zero, and only a zero
    prints as ["0"]. *)
Definition truthy (v : option json) : bool :=
  match v with
  | None | Some JNull => false
  | Some (JBool b) => b
  | Some (JNumber l) => negb (str_eqb (Number_toString l) (lit "0"))
  | Some (JString s) => negb (str_eqb s [])
  | Some (JArray _) | Some (JObject _) => true
  end.

(** [ToString] of a parsed value, as string concatenation and [new Error]
    apply it. [None] is the [TypeError] of an object that cannot be made a
    primitive: its own member [toString] hides [Object.prototype.toString]
    and is no function. An array prints its items joined by commas, a
    [null] item as the empty string. *)
Fixpoint ToString (v : json) : option jsstring :=
  match v with
  | JNull => Some (lit "null")
  | JBool true => Some (lit "true")
  | JBool false => Some (lit "false")
  | JNumber l => Some (Number_toString l)
  | JString s => Some s
  | JArray items =>
      (fix join (xs : list json) : option jsstring :=
         match xs with
         | [] => Some []
         | x :: rest =>
             match match x with JNull => Some [] | _ => ToString x end,
                   join rest with
             | Some a, Some b =>
                 Some (match rest with [] => a | _ :: _ => a ++ 44 :: b end)
             | _, _ => None
             end
         end) items
  | JObject ms =>
      match own_property ms (lit "toString") with
      | Some _ => None
      | None => Some (lit "[object Object]")
      end
  end.

(** [last?.role === 'assistant' && last.id.startsWith('ai-')] (line 160):
    the last turn is one a delta may extend. *)
Definition open_turn (last : option Message) : bool :=
  match last with
  | Some last =>
      Role_eqb (role last) assistant && startsWith (id last) (lit "ai-")
  | None => false
  end.

(** The updater of lines 158-164, applied to the transcript as soon as it
    is passed to [setMessages], with [assistantSoFar] as it then stands.
    React may run the updaters of one read later, all at once, and each
    then reads [assistantSoFar] as it stands by then; the transcript behind
    the last of them is the same, since the last delta sets the content the
    turn ends with. [Date.now()] is read only where a turn is created. *)
Definition setMessages_delta (st : Session) : Session :=
  let prev := messages st in
  if open_turn (last_message prev)
  then mkSession (textBuffer st) (assistantSoFar st)
         (map_indexed
            (fun m i =>
               if Nat.eqb i (length prev - 1)
               then mkMessage (id m) (role m) (assistantSoFar st)
               else m) O prev)
         (ticks st)
  else mkSession (textBuffer st) (assistantSoFar st)
         (prev ++ [mkMessage (lit "ai-" ++ decimal (Date_now (ticks st)))
                     assistant (assistantSoFar st)])
         (S (ticks st)).

(** The [try] block of lines 153-165; [None] when it throws. Nothing is
    assigned before the last point that can throw. *)
Definition try_block (jsonStr : jsstring) (st : Session) : option Session :=
  match JSON_parse jsonStr with
  | None => None
  | Some parsed =>
      match delta_content parsed with
      | None => None
      | Some content =>
          if truthy content
          then match content with
               | Some c =>
                   match ToString c with
                   | Some s =>
                       Some (setMessages_delta
                               (set_assistantSoFar (assistantSoFar st ++ s) st))
                   | None => None
                   end
               | None => Some st
               end
          else Some st
      end
  end.

(** The body of the inner [while] (lines 146-169) for the line cut off the
    buffer; [st] already holds the rest of the buffer. *)
Definition loop_body (line0 : jsstring) (st : Session) : Ctl * Session :=
  let line := if endsWith line0 [CR] then drop_last line0 else line0 in
  if startsWith line (lit ":") || str_eqb (trim line) [] then (Continue, st)
  else if negb (startsWith line (lit "data: ")) then (Continue, st)
  else
    let jsonStr := trim (skipn 6 line) in
    if str_eqb jsonStr (lit "[DONE]") then (Break, st)
    else match try_block jsonStr st with
         | Some st' => (Continue, st')
         | None => (Break, set_textBuffer (line ++ LF :: textBuffer st) st)
         end.

(** The inner [while] (lines 145-170). Every iteration takes at least the
    newline off the buffer, so the length of the buffer is fuel enough,
    as is proved below. *)
Fixpoint line_loop_fuel (fuel : nat) (st : Session) : Session :=
  match fuel with
  | O => st
  | S fuel' =>
      match indexOf (textBuffer st) LF with
      | None => st
      | Some newlineIndex =>
          let line := firstn newlineIndex (textBuffer st) in
          let st1 :=
            set_textBuffer (skipn (S newlineIndex) (textBuffer st)) st in
          match loop_body line st1 with
          | (Continue, st2) => line_loop_fuel fuel' st2
          | (Break, st2) => st2
          end
      end
  end.

Definition line_loop (st : Session) : Session :=
  line_loop_fuel (length (textBuffer st)) st.

(** The inner [while] once more, one unit of fuel for each iteration that
    is begun: [None] when the fuel is spent and the buffer still holds a
    newline, that is when the loop has not ended within [fuel]
    iterations. *)
Fixpoint line_loop_run (fuel : nat) (st : Session) : option Session :=
  match indexOf (textBuffer st) LF with
  | None => Some st
  | Some newlineIndex =>
      match fuel with
      | O => None
      | S fuel' =>
          let line := firstn newlineIndex (textBuffer st) in
          let st1 :=
            set_textBuffer (skipn (S newlineIndex) (textBuffer st)) st in
          match loop_body line st1 with
          | (Continue, st2) => line_loop_run fuel' st2
          | (Break, st2) => Some st2
          end
      end
  end.

(** The outer [while (true)] (lines 139-171): one iteration per chunk
    read. The first component is the message of the error the loop throws,
    if any. *)
Fixpoint read_loop (chunks : list jsstring) (fin : StreamEnd) (st : Session)
  : option jsstring * Session :=
  match chunks with
  | [] =>
      match fin with
      | EndOfStream => (None, st)
      | ReadError m => (Some m, st)
      end
  | value :: chunks' =>
      read_loop chunks' fin
        (line_loop (set_textBuffer (textBuffer st ++ value) st))
  end.

(** [resp.ok] *)
Definition ok_status (status : N) : bool :=
  (200 <=? status) && (status <=? 299).

(** [await resp.json().catch(() => ({}))] (line 129). *)
Definition response_json (body : option (list jsstring * StreamEnd)) : json :=
  match body with
  | Some (chunks, EndOfStream) =>
      match JSON_parse (concat chunks) with
      | Some v => v
      | None => JObject []
      end
  | _ => JObject []
  end.

(** The message of the error thrown at line 130, or of the [TypeError]
    raised while building it. *)
Definition status_error_message (status : N)
  (body : option (list jsstring * StreamEnd)) : jsstring :=
  match response_json body with
  | JNull => null_read_message
  | errData =>
      let e := get_named errData (lit "error") in
      if truthy e
      then match e with
           | Some v =>
               match ToString v with
               | Some s => s
               | None => not_primitive_message
               end
           | None => []
           end
      else lit "Error " ++ decimal status
  end.

(** The [try] block of lines 118-171: the message of the error it throws,
    if any, and the session as it leaves it. *)
Definition try_send (net : FetchResult) (st : Session)
  : option jsstring * Session :=
  match net with
  | FetchRejected m => (Some m, st)
  | FetchResponse status body =>
      if negb (ok_status status)
      then (Some (status_error_message status body), st)
      else match body with
           | None => (Some (lit "No response body"), st)
           | Some (chunks, fin) => read_loop chunks fin st
           end
  end.

(** The mark before the file name on line 103, as the source file holds
    it: the four code units U+00F0, U+0178, U+201C and U+017D, which are the
    UTF-8 bytes of the paper clip U+1F4CE read as Windows-1252. *)
Definition paperclip : jsstring := [240; 376; 8220; 381].

(** The text of the user's turn as shown (lines 102-104). *)
Definition displayContent (input : jsstring) (attachedFile : option Attachment)
  : jsstring :=
  match attachedFile with
  | Some f =>
      trim input
        ++ (if str_eqb (trim input) [] then [] else [LF; LF])
        ++ paperclip ++ lit " " ++ name f
  | None => trim input
  end.

(** The [catch] of lines 172-177. *)
Definition error_turn (now : N) (message : jsstring) : Message :=
  mkMessage (lit "err-" ++ decimal now) assistant
    (lit "Sorry, I encountered an error: " ++ message
       ++ lit ". Please try again.").

(** The guard of line 93: nothing to send, or a send under way. *)
Definition refused (input : jsstring) (attachedFile : option Attachment)
  (isLoading : bool) : bool :=
  (str_eqb (trim input) []
   && match attachedFile with None => true | Some _ => false end)
  || isLoading.

(** The user's turn as the transcript shows it (lines 100-105). *)
Definition displayMsg (input : jsstring) (attachedFile : option Attachment)
  : Message :=
  mkMessage (decimal (Date_now O)) user (displayContent input attachedFile).

(** The session as the [try] block finds it: the user's turn appended
    (line 107), [assistantSoFar] and [textBuffer] empty (lines 112, 137), one
    reading of the clock taken (line 100). *)
Definition session0 (prev : list Message) (input : jsstring)
  (attachedFile : option Attachment) : Session :=
  mkSession [] [] (prev ++ [displayMsg input attachedFile]) 1.

(** [handleSend] (lines 92-181) as a function from the transcript, the
    input box, the attachment and [isLoading] at the call, and what the
    network then gives, to the transcript it leaves. *)
Definition handleSend (prev : list Message) (input : jsstring)
  (attachedFile : option Attachment) (isLoading : bool) (net : FetchResult)
  : list Message :=
  if refused input attachedFile isLoading
  then prev
  else
    let st := session0 prev input attachedFile in
    match try_send net st with
    | (None, st') => messages st'
    | (Some message, st') =>
        messages st' ++ [error_turn (Date_now (ticks st')) message]
    end.

(** ** The request and the page around a send *)

(** [userContent] (lines 95-98): the text the request carries for the
    user's turn, the data of the attached file behind it. *)
Definition userContent (input : jsstring) (attachedFile : option Attachment)
  : jsstring :=
  match attachedFile with
  | Some f =>
      (if str_eqb (trim input) [] then [] else trim input ++ [LF; LF])
        ++ lit "[Attached Portfolio]" ++ [LF] ++ data f
  | None => trim input
  end.

(** [userMsg] (line 100). *)
Definition userMsg (input : jsstring) (attachedFile : option Attachment)
  : Message :=
  mkMessage (decimal (Date_now O)) user (userContent input attachedFile).

(** [allMessages] (lines 113-116), the [messages] of the request body: the
    transcript the call found, the turn of id ['1'] left out, then the
    user's turn; of each the role and the content. *)
Definition allMessages (prev : list Message) (input : jsstring)
  (attachedFile : option Attachment) : list (Role * jsstring) :=
  map (fun m => (role m, content m))
    (filter (fun m => negb (str_eqb (id m) (lit "1"))) prev
       ++ [userMsg input attachedFile]).

(** The condition of line 210, under which the page shows [Thinking...]. *)
Definition thinking (isLoading : bool) (shown : list Message) : bool :=
  isLoading
  && match last_message shown with
     | Some m => Role_eqb (role m) user
     | None => false
     end.

(** [disabled] of the send button (line 256). *)
Definition send_disabled (input : jsstring)
  (attachedFile : option Attachment) (isLoading : bool) : bool :=
  isLoading
  || (str_eqb (trim input) []
      && match attachedFile with None => true | Some _ => false end).

(** The turns of a transcript as a request carries them. *)
Definition carried (ms : list Message) : list (Role * jsstring) :=
  map (fun m => (role m, content m))
    (filter (fun m => negb (str_eqb (id m) (lit "1"))) ms).

(** ** The line loop, read line by line

    The definitions below restate nothing of the source: they name what the
    proofs speak about. [verdict_of] is what [loop_body] does with a line,
    whatever the session; [loop_body_verdict] says so. *)

(** The line as the body reads it: without the carriage return that ends
    it (line 148). *)
Definition strip_cr (l : jsstring) : jsstring :=
  if endsWith l [CR] then drop_last l else l.

Inductive verdict : Type :=
| Pass (delta : option jsstring)   (* [continue], or the end of the body *)
| Done                             (* [break] on the sentinel *)
| Requeue (line : jsstring).       (* the [catch]: re-buffer and [break] *)

Definition payload_delta (jsonStr : jsstring) : option (option jsstring) :=
  match JSON_parse jsonStr with
  | None => None
  | Some parsed =>
      match delta_content parsed with
      | None => None
      | Some content =>
          if truthy content
          then match content with
               | Some c =>
                   match ToString c with
                   | Some s => Some (Some s)
                   | None => None
                   end
               | None => Some None
               end
          else Some None
      end
  end.

Definition verdict_of (line0 : jsstring) : verdict :=
  let line := if endsWith line0 [CR] then drop_last line0 else line0 in
  if startsWith line (lit ":") || str_eqb (trim line) [] then Pass None
  else if negb (startsWith line (lit "data: ")) then Pass None
  else
    let jsonStr := trim (skipn 6 line) in
    if str_eqb jsonStr (lit "[DONE]") then Done
    else match payload_delta jsonStr with
         | Some d => Pass d
         | None => Requeue line
         end.

Definition is_requeue (l : jsstring) : bool :=
  match verdict_of l with Requeue _ => true | _ => false end.

Definition is_done (l : jsstring) : bool :=
  match verdict_of l with Done => true | _ => false end.

Definition is_pass (l : jsstring) : bool :=
  match verdict_of l with Pass _ => true | _ => false end.

(** The delta a line adds to the reply, if it adds one. *)
Definition delta_of (l : jsstring) : option jsstring :=
  match verdict_of l with Pass d => d | _ => None end.

(** Lines 157-164: one delta appended to [assistantSoFar] and reconciled. *)
Definition apply_delta (s : jsstring) (st : Session) : Session :=
  setMessages_delta (set_assistantSoFar (assistantSoFar st ++ s) st).

Definition absorb_line (st : Session) (l : jsstring) : Session :=
  match delta_of l with
  | Some s => apply_delta s st
  | None => st
  end.

(** The session after the bodies of the given lines, the buffer apart. *)
Definition absorb (ls : list jsstring) (st : Session) : Session :=
  fold_left absorb_line ls st.

(** Lines, each with its newline, as they stand in the stream. *)
Definition join (ls : list jsstring) : jsstring :=
  concat (map (fun l => l ++ [LF]) ls).

Definition nolf (l : jsstring) : Prop := ~ In LF l.

(** The full lines of a text, each without its newline; what follows the
    last newline is no full line. [cur] is the line being read, reversed. *)
Fixpoint full_lines_from (cur s : jsstring) : list jsstring :=
  match s with
  | [] => []
  | c :: s' =>
      if c =? LF then rev cur :: full_lines_from [] s'
      else full_lines_from (c :: cur) s'
  end.

Definition full_lines (s : jsstring) : list jsstring := full_lines_from [] s.

(** [nolf], as a test. *)
Definition single_line (l : jsstring) : bool :=
  match indexOf l LF with None => true | Some _ => false end.

(** The line adds nothing to the reply. *)
Definition no_delta (l : jsstring) : bool :=
  match delta_of l with None => true | Some _ => false end.

(** The deltas of the lines that carry one, in order. *)
Fixpoint deltas_of (ls : list jsstring) : list jsstring :=
  match ls with
  | [] => []
  | l :: ls' =>
      match delta_of l with
      | Some s => s :: deltas_of ls'
      | None => deltas_of ls'
      end
  end.

(** The turn the deltas of a session make: none when there is no delta,
    else one turn that holds them all. *)
Definition reply_turn (now : N) (ds : list jsstring) : list Message :=
  match ds with
  | [] => []
  | _ :: _ => [mkMessage (lit "ai-" ++ decimal now) assistant (concat ds)]
  end.

Definition feed (ds : list jsstring) (st : Session) : Session :=
  fold_left (fun st s => apply_delta s st) ds st.

(** How the line loop can leave the buffer [buf], when [ls] are the lines
    it has gone through since the session began and [B] is the text of the
    stream behind them: no full line is left; or it broke on the sentinel,
    the last line gone through; or it is stuck on a line that throws, which
    every later iteration of the read loop finds again at the head of the
    buffer. *)
Inductive rests (ls : list jsstring) (B buf : jsstring) : Prop :=
| rests_drained :
    buf = B -> indexOf B LF = None -> rests ls B buf
| rests_done (ls0 : list jsstring) (l : jsstring) :
    buf = B -> ls = ls0 ++ [l] -> is_done l = true -> rests ls B buf
| rests_stuck (l l1 R : jsstring) :
    B = l ++ LF :: R -> buf = l1 ++ LF :: R ->
    nolf l -> nolf l1 -> is_requeue l = true -> is_requeue l1 = true ->
    rests ls B buf.

(** The sessions the read loop can be in after the text [P] of the stream,
    from the session [st0]. *)
Definition reached (st0 : Session) (P : jsstring) (st : Session) : Prop :=
  exists ls B,
    P = join ls ++ B /\
    Forall nolf ls /\
    Forall (fun l => is_requeue l = false) ls /\
    st = set_textBuffer (textBuffer st) (absorb ls st0) /\
    rests ls B (textBuffer st).

(** *** Strings *)

Lemma str_eqb_eq (a b : jsstring) : str_eqb a b = true <-> a = b.
Proof.
  revert b; induction a as [|x a IH]; intros [|y b]; simpl;
    try (split; congruence).
  rewrite andb_true_iff, N.eqb_eq, IH. split.
  - intros [-> ->]; reflexivity.
  - intros H; inversion H; auto.
Qed.

Lemma str_eqb_refl (a : jsstring) : str_eqb a a = true.
Proof. apply str_eqb_eq; reflexivity. Qed.

Lemma indexOf_app (l r : jsstring) (c : N) :
  ~ In c l -> indexOf (l ++ c :: r) c = Some (length l).
Proof.
  induction l as [|x l IH]; simpl; intros H.
  - rewrite N.eqb_refl; reflexivity.
  - destruct (N.eqb_spec x c) as [->|_].
    + exfalso; apply H; left; reflexivity.
    + rewrite IH; [reflexivity | intros Hin; apply H; right; exact Hin].
Qed.

Lemma indexOf_None (s : jsstring) (c : N) :
  indexOf s c = None <-> ~ In c s.
Proof.
  induction s as [|x s IH]; simpl.
  - split; [intros _ [] | reflexivity].
  - destruct (N.eqb_spec x c) as [->|Hne].
    + split; [discriminate | intros H; exfalso; apply H; left; reflexivity].
    + destruct (indexOf s c) as [i|].
      * split; [discriminate|].
        intros H; exfalso. destruct IH as [_ IH].
        assert (Hs : ~ In c s) by (intros Hin; apply H; right; exact Hin).
        specialize (IH Hs); discriminate.
      * split; [|reflexivity]. intros _ [Heq|Hin]; [congruence|].
        destruct IH as [IH _]. exact (IH eq_refl Hin).
Qed.

Lemma indexOf_Some (s : jsstring) (c : N) (i : nat) :
  indexOf s c = Some i ->
  s = firstn i s ++ c :: skipn (S i) s /\ ~ In c (firstn i s).
Proof.
  revert i; induction s as [|x s IH]; simpl; intros i H; [discriminate|].
  destruct (N.eqb_spec x c) as [->|Hne].
  - inversion H; subst; simpl. split; [reflexivity | intros []].
  - destruct (indexOf s c) as [j|]; [|discriminate].
    inversion H; subst; simpl.
    destruct (IH j eq_refl) as [Hs Hn]. split.
    + f_equal. exact Hs.
    + intros [Heq|Hin]; [congruence | exact (Hn Hin)].
Qed.

(** A text is cut at its first newline in one way only. *)
Lemma cut_unique (x y a b : jsstring) :
  nolf x -> nolf y -> x ++ LF :: a = y ++ LF :: b -> x = y /\ a = b.
Proof.
  revert y; induction x as [|c x IH]; intros [|d y] Hx Hy H; simpl in H.
  - inversion H; auto.
  - inversion H; subst. exfalso; apply Hy; left; reflexivity.
  - inversion H; subst. exfalso; apply Hx; left; reflexivity.
  - inversion H; subst.
    destruct (IH y) as [-> ->]; auto.
    + intros Hin; apply Hx; right; exact Hin.
    + intros Hin; apply Hy; right; exact Hin.
Qed.

Lemma firstn_cut (l r : jsstring) (c : N) :
  firstn (length l) (l ++ c :: r) = l.
Proof.
  rewrite firstn_app, Nat.sub_diag, firstn_all; simpl. apply app_nil_r.
Qed.

Lemma skipn_cut (l r : jsstring) (c : N) :
  skipn (S (length l)) (l ++ c :: r) = r.
Proof.
  induction l as [|x l IH]; simpl; [reflexivity | exact IH].
Qed.

(** *** The body of the line loop *)

Lemma loop_body_verdict (l : jsstring) (st : Session) :
  loop_body l st =
  match verdict_of l with
  | Pass None => (Continue, st)
  | Pass (Some s) => (Continue, apply_delta s st)
  | Done => (Break, st)
  | Requeue l' => (Break, set_textBuffer (l' ++ LF :: textBuffer st) st)
  end.
Proof.
  unfold loop_body, verdict_of, try_block, payload_delta, apply_delta.
  destruct (startsWith _ (lit ":") || str_eqb _ []); [reflexivity|].
  destruct (negb (startsWith _ (lit "data: "))); [reflexivity|].
  destruct (str_eqb _ (lit "[DONE]")); [reflexivity|].
  destruct (JSON_parse _) as [parsed|]; [|reflexivity].
  destruct (delta_content parsed) as [c|]; [|reflexivity].
  destruct (truthy c); [|reflexivity].
  destruct c as [c|]; [|reflexivity].
  destruct (ToString c); reflexivity.
Qed.

Lemma set_textBuffer_twice (b b' : jsstring) (st : Session) :
  set_textBuffer b (set_textBuffer b' st) = set_textBuffer b st.
Proof. reflexivity. Qed.

Lemma set_textBuffer_same (st : Session) :
  set_textBuffer (textBuffer st) st = st.
Proof. destruct st; reflexivity. Qed.

Lemma apply_delta_set_textBuffer (s b : jsstring) (st : Session) :
  apply_delta s (set_textBuffer b st) = set_textBuffer b (apply_delta s st).
Proof.
  unfold apply_delta, setMessages_delta; simpl.
  destruct (open_turn (last_message (messages st))); reflexivity.
Qed.

Lemma absorb_set_textBuffer (ls : list jsstring) (b : jsstring) (st : Session) :
  absorb ls (set_textBuffer b st) = set_textBuffer b (absorb ls st).
Proof.
  revert st; induction ls as [|l ls IH]; intros st; simpl; [reflexivity|].
  unfold absorb in *; simpl. unfold absorb_line at 2 4.
  destruct (delta_of l) as [s|]; [|apply IH].
  rewrite apply_delta_set_textBuffer. apply IH.
Qed.

Lemma absorb_app (a b : list jsstring) (st : Session) :
  absorb (a ++ b) st = absorb b (absorb a st).
Proof. unfold absorb; apply fold_left_app. Qed.

Lemma absorb_cons (l : jsstring) (ls : list jsstring) (st : Session) :
  absorb (l :: ls) st = absorb ls (absorb_line st l).
Proof. reflexivity. Qed.

Lemma join_app (a b : list jsstring) : join (a ++ b) = join a ++ join b.
Proof. unfold join. rewrite map_app, concat_app. reflexivity. Qed.

Lemma join_cons (l : jsstring) (ls : list jsstring) :
  join (l :: ls) = l ++ LF :: join ls.
Proof. unfold join; simpl. rewrite <- app_assoc. reflexivity. Qed.

(** *** A line that throws, met again *)

Lemma verdict_requeue_inv (l l' : jsstring) :
  verdict_of l = Requeue l' ->
  l' = strip_cr l /\
  startsWith l' (lit ":") || str_eqb (trim l') [] = false /\
  startsWith l' (lit "data: ") = true /\
  str_eqb (trim (skipn 6 l')) (lit "[DONE]") = false /\
  payload_delta (trim (skipn 6 l')) = None.
Proof.
  unfold verdict_of. fold (strip_cr l).
  destruct (startsWith _ (lit ":") || str_eqb _ []) eqn:H1; [discriminate|].
  destruct (startsWith _ (lit "data: ")) eqn:H2; simpl; [|discriminate].
  destruct (str_eqb _ (lit "[DONE]")) eqn:H3; [discriminate|].
  destruct (payload_delta _) eqn:H4; [discriminate|].
  intros H; inversion H; subst. auto.
Qed.

Lemma verdict_requeue_intro (l : jsstring) :
  startsWith (strip_cr l) (lit ":") || str_eqb (trim (strip_cr l)) [] = false ->
  startsWith (strip_cr l) (lit "data: ") = true ->
  str_eqb (trim (skipn 6 (strip_cr l))) (lit "[DONE]") = false ->
  payload_delta (trim (skipn 6 (strip_cr l))) = None ->
  verdict_of l = Requeue (strip_cr l).
Proof.
  intros H1 H2 H3 H4. unfold verdict_of. fold (strip_cr l).
  rewrite H1, H2, H3, H4. reflexivity.
Qed.

Lemma endsWith_last (s : jsstring) (c : N) :
  endsWith s [c] = true -> s = removelast s ++ [c].
Proof.
  unfold endsWith. simpl. intros H.
  destruct (rev s) as [|y r] eqn:Hr; [discriminate|].
  simpl in H. destruct (N.eqb_spec c y) as [<-|]; [|discriminate].
  assert (Hs : s = rev r ++ [c]).
  { rewrite <- (rev_involutive s), Hr. reflexivity. }
  rewrite Hs at 2. rewrite removelast_last. exact Hs.
Qed.

Lemma In_removelast (s : jsstring) (a : N) : In a (removelast s) -> In a s.
Proof.
  induction s as [|x s IH]; simpl; [auto|].
  destruct s as [|y s]; [intros []|].
  intros [H|H]; [left; exact H | right; apply IH; exact H].
Qed.

Lemma nolf_strip_cr (l : jsstring) : nolf l -> nolf (strip_cr l).
Proof.
  unfold nolf, strip_cr, drop_last. intros H Hin.
  destruct (endsWith l [CR]); [apply In_removelast in Hin|]; exact (H Hin).
Qed.

Lemma startsWith_snoc (x p : jsstring) (c : N) :
  startsWith (x ++ [c]) p = true -> startsWith x p = true \/ p = x ++ [c].
Proof.
  revert p; induction x as [|y x IH]; intros [|q p]; simpl; auto.
  - rewrite andb_true_iff, N.eqb_eq. intros [-> H].
    destruct p; [right; reflexivity | discriminate].
  - rewrite andb_true_iff, N.eqb_eq. intros [-> H].
    destruct (IH p H) as [H'|H'].
    + left. rewrite N.eqb_refl. exact H'.
    + right. rewrite H'. reflexivity.
Qed.

Lemma startsWith_cons_inv (s p : jsstring) (q : N) :
  startsWith s (q :: p) = true -> exists s', s = q :: s' /\ startsWith s' p = true.
Proof.
  destruct s as [|y s]; [discriminate|].
  cbn [startsWith]. rewrite andb_true_iff, N.eqb_eq. intros [-> H].
  exists s; auto.
Qed.

Lemma startsWith_length (s p : jsstring) :
  startsWith s p = true -> (length p <= length s)%nat.
Proof.
  revert s; induction p as [|q p IH]; intros [|y s]; simpl;
    try lia; try discriminate.
  rewrite andb_true_iff. intros [_ H]. apply IH in H. lia.
Qed.

Lemma trim_start_all_space (s : jsstring) :
  forallb is_js_space s = true -> trim_start s = [].
Proof.
  induction s as [|c s IH]; simpl; [reflexivity|].
  rewrite andb_true_iff. intros [-> H]. exact (IH H).
Qed.

Lemma trim_start_snoc (s : jsstring) (c : N) :
  forallb is_js_space s = false -> trim_start (s ++ [c]) = trim_start s ++ [c].
Proof.
  induction s as [|x s IH]; simpl; [discriminate|].
  destruct (is_js_space x); simpl; [exact IH | reflexivity].
Qed.

(** [trim] does not see a space added at the end. *)
Lemma trim_snoc_space (s : jsstring) (c : N) :
  is_js_space c = true -> trim (s ++ [c]) = trim s.
Proof.
  intros Hc. unfold trim.
  destruct (forallb is_js_space s) eqn:Hall.
  - rewrite (trim_start_all_space s Hall).
    rewrite (trim_start_all_space (s ++ [c])); [reflexivity|].
    rewrite forallb_app, Hall; simpl. rewrite Hc; reflexivity.
  - rewrite (trim_start_snoc s c Hall), rev_app_distr. simpl.
    rewrite Hc. reflexivity.
Qed.

Lemma trim_start_nonempty (s : jsstring) (c : N) :
  In c s -> is_js_space c = false -> trim_start s <> [].
Proof.
  induction s as [|x s IH]; simpl; [intros []|].
  intros [->|Hin] Hc.
  - rewrite Hc; discriminate.
  - destruct (is_js_space x); [apply IH; assumption | discriminate].
Qed.

Lemma trim_start_incl (s : jsstring) (c : N) :
  In c s -> is_js_space c = false -> In c (trim_start s).
Proof.
  induction s as [|x s IH]; simpl; [intros []|].
  intros [->|Hin] Hc.
  - rewrite Hc; left; reflexivity.
  - destruct (is_js_space x); [apply IH; assumption | right; exact Hin].
Qed.

Lemma trim_nonempty (s : jsstring) (c : N) :
  In c s -> is_js_space c = false -> str_eqb (trim s) [] = false.
Proof.
  intros Hin Hc. unfold trim.
  destruct (str_eqb _ []) eqn:He; [|reflexivity].
  apply str_eqb_eq in He.
  assert (H1 : In c (rev (trim_start s)))
    by (apply in_rev; rewrite rev_involutive; apply trim_start_incl; assumption).
  pose proof (trim_start_nonempty _ _ H1 Hc) as H2.
  apply (f_equal (@rev N)) in He. rewrite rev_involutive in He.
  exfalso; exact (H2 He).
Qed.

(** Once the body has thrown on a line, it throws on what it put back. *)
Lemma requeue_again (l l' : jsstring) :
  verdict_of l = Requeue l' -> is_requeue l' = true.
Proof.
  intros Hv. apply verdict_requeue_inv in Hv.
  destruct Hv as (_ & H1 & H2 & H3 & H4).
  unfold is_requeue.
  destruct (endsWith l' [CR]) eqn:He.
  - pose proof (endsWith_last _ _ He) as Hl'.
    remember (removelast l') as x eqn:Hx.
    assert (Hsx : strip_cr l' = x)
      by (unfold strip_cr, drop_last; rewrite He; symmetry; exact Hx).
    assert (H2x : startsWith x (lit "data: ") = true).
    { rewrite Hl' in H2. apply startsWith_snoc in H2.
      destruct H2 as [H2|H2]; [exact H2|].
      exfalso. apply (f_equal (@rev N)) in H2.
      rewrite rev_app_distr in H2. simpl in H2. unfold CR in H2.
      discriminate. }
    assert (Hd : exists y, x = 100 :: y).
    { change (lit "data: ") with (100 :: lit "ata: ") in H2x.
      apply startsWith_cons_inv in H2x. destruct H2x as (y & Hy & _).
      exists y; exact Hy. }
    destruct Hd as [y Hy].
    assert (Hskip : skipn 6 l' = skipn 6 x ++ [CR]).
    { rewrite Hl'. rewrite skipn_app.
      apply startsWith_length in H2x. simpl in H2x.
      replace (6 - length x)%nat with O by lia. reflexivity. }
    rewrite Hskip in H3, H4.
    rewrite trim_snoc_space in H3, H4 by reflexivity.
    rewrite (verdict_requeue_intro l'); [reflexivity| | | |]; rewrite Hsx; auto.
    rewrite Hy at 1. simpl.
    apply (trim_nonempty x 100); [rewrite Hy; left; reflexivity | reflexivity].
  - assert (Hsx : strip_cr l' = l') by (unfold strip_cr; rewrite He; reflexivity).
    rewrite (verdict_requeue_intro l'); [reflexivity| | | |]; rewrite Hsx; auto.
Qed.

Lemma requeue_nolf (l l' : jsstring) :
  verdict_of l = Requeue l' -> nolf l -> nolf l'.
Proof.
  intros Hv Hl. apply verdict_requeue_inv in Hv. destruct Hv as [-> _].
  apply nolf_strip_cr; exact Hl.
Qed.

(** *** The line loop *)

Lemma line_loop_fuel_cut (fuel : nat) (st : Session) (line rest : jsstring) :
  nolf line -> textBuffer st = line ++ LF :: rest ->
  line_loop_fuel (S fuel) st =
  match verdict_of line with
  | Pass d => line_loop_fuel fuel (set_textBuffer rest (absorb_line st line))
  | Done => set_textBuffer rest st
  | Requeue l' => set_textBuffer (l' ++ LF :: rest) st
  end.
Proof.
  intros Hn Hb. cbn [line_loop_fuel].
  rewrite Hb, (indexOf_app line rest LF Hn), firstn_cut, skipn_cut.
  rewrite loop_body_verdict. unfold absorb_line, delta_of.
  destruct (verdict_of line) as [[s|]| |l']; try reflexivity.
  rewrite apply_delta_set_textBuffer. reflexivity.
Qed.

(** The line loop goes through full lines of the buffer, folds their
    deltas into the session, and leaves the buffer in one of the three ways
    of [rests]. *)
Lemma line_loop_fuel_spec (fuel : nat) (st : Session) :
  (length (textBuffer st) <= fuel)%nat ->
  exists ls B buf,
    textBuffer st = join ls ++ B /\
    Forall nolf ls /\
    Forall (fun l => is_requeue l = false) ls /\
    line_loop_fuel fuel st = set_textBuffer buf (absorb ls st) /\
    rests ls B buf.
Proof.
  revert st; induction fuel as [|fuel IH]; intros st Hlen.
  - exists [], (textBuffer st), (textBuffer st).
    split; [reflexivity|]. split; [constructor|]. split; [constructor|].
    split; [symmetry; apply set_textBuffer_same|].
    apply rests_drained; [reflexivity|].
    destruct (textBuffer st); [reflexivity | simpl in Hlen; lia].
  - destruct (indexOf (textBuffer st) LF) as [i|] eqn:Hi.
    + destruct (indexOf_Some _ _ _ Hi) as [Hs Hn].
      remember (firstn i (textBuffer st)) as line eqn:Hline.
      remember (skipn (S i) (textBuffer st)) as rest eqn:Hrest.
      rewrite (line_loop_fuel_cut fuel st line rest Hn Hs).
      assert (Hlr : (length rest <= fuel)%nat).
      { rewrite Hs, length_app in Hlen. simpl in Hlen. lia. }
      destruct (verdict_of line) as [d| |l'] eqn:Hv.
      * destruct (IH (set_textBuffer rest (absorb_line st line)) Hlr)
          as (ls & B & buf & HB & Hnl & Hnr & Hres & Hrests).
        exists (line :: ls), B, buf.
        split; [|split; [|split; [|split]]].
        -- rewrite join_cons, Hs, <- app_assoc. simpl in HB |- *.
           rewrite HB. reflexivity.
        -- constructor; [exact Hn | exact Hnl].
        -- constructor; [unfold is_requeue; rewrite Hv; reflexivity | exact Hnr].
        -- rewrite Hres, absorb_cons, absorb_set_textBuffer. reflexivity.
        -- destruct Hrests
             as [Hb Hno | ls0 l Hb Hls Hd | l l1 R HB' Hb Hl Hl1 Hr Hr1].
           ++ apply rests_drained; assumption.
           ++ apply (rests_done _ _ _ (line :: ls0) l); auto.
              rewrite Hls; reflexivity.
           ++ apply (rests_stuck _ _ _ l l1 R); assumption.
      * exists [line], rest, rest.
        split; [|split; [|split; [|split]]].
        -- rewrite join_cons. simpl. rewrite <- app_assoc. exact Hs.
        -- constructor; [exact Hn | constructor].
        -- constructor; [unfold is_requeue; rewrite Hv; reflexivity | constructor].
        -- unfold absorb; simpl. unfold absorb_line, delta_of; rewrite Hv.
           reflexivity.
        -- apply (rests_done _ _ _ [] line); auto.
           unfold is_done; rewrite Hv; reflexivity.
      * exists [], (textBuffer st), (l' ++ LF :: rest).
        split; [reflexivity|]. split; [constructor|]. split; [constructor|].
        split; [reflexivity|].
        apply (rests_stuck _ _ _ line l' rest); auto.
        -- exact (requeue_nolf _ _ Hv Hn).
        -- unfold is_requeue; rewrite Hv; reflexivity.
        -- exact (requeue_again _ _ Hv).
    + exists [], (textBuffer st), (textBuffer st).
      split; [reflexivity|]. split; [constructor|]. split; [constructor|].
      split; [simpl; rewrite Hi; symmetry; apply set_textBuffer_same|].
      apply rests_drained; [reflexivity | exact Hi].
Qed.

(** Stuck on a line that throws, the line loop stays stuck on it: it takes
    the line off the buffer, throws again and puts it back. *)
Lemma line_loop_stuck (st : Session) (l1 R : jsstring) :
  textBuffer st = l1 ++ LF :: R -> nolf l1 -> is_requeue l1 = true ->
  exists l2,
    line_loop st = set_textBuffer (l2 ++ LF :: R) st /\
    nolf l2 /\ is_requeue l2 = true.
Proof.
  intros Hb Hn Hr.
  assert (Hlen : length (textBuffer st) = S (length l1 + length R)).
  { rewrite Hb, length_app. simpl. lia. }
  unfold line_loop. rewrite Hlen.
  rewrite (line_loop_fuel_cut _ st l1 R Hn Hb).
  unfold is_requeue in Hr.
  destruct (verdict_of l1) as [d| |l2] eqn:Hv; try discriminate.
  exists l2. split; [reflexivity|]. split.
  - exact (requeue_nolf _ _ Hv Hn).
  - exact (requeue_again _ _ Hv).
Qed.

(** *** The read loop *)

Lemma reached_start (st0 : Session) :
  textBuffer st0 = [] -> reached st0 [] st0.
Proof.
  intros Hb. exists [], []. rewrite Hb.
  split; [reflexivity|]. split; [constructor|]. split; [constructor|].
  split; [rewrite <- Hb; symmetry; apply set_textBuffer_same|].
  apply rests_drained; reflexivity.
Qed.

(** One iteration of the read loop: the chunk is added to the buffer and
    the line loop runs. *)
Lemma reached_chunk (st0 st : Session) (P value : jsstring) :
  reached st0 P st ->
  reached st0 (P ++ value)
    (line_loop (set_textBuffer (textBuffer st ++ value) st)).
Proof.
  intros (ls & B & HP & Hnl & Hnr & Hst & Hrests).
  assert (Hfree : textBuffer st = B ->
             reached st0 (P ++ value)
               (line_loop (set_textBuffer (textBuffer st ++ value) st))).
  { intros Hb.
    destruct (line_loop_fuel_spec
                (length (textBuffer (set_textBuffer (textBuffer st ++ value) st)))
                (set_textBuffer (textBuffer st ++ value) st) (le_n _))
      as (ls2 & B2 & buf2 & HB2 & Hnl2 & Hnr2 & Hres & Hrests2).
    fold (line_loop (set_textBuffer (textBuffer st ++ value) st)) in Hres.
    exists (ls ++ ls2), B2.
    split; [|split; [|split; [|split]]].
    - rewrite HP, join_app, <- !app_assoc. f_equal.
      simpl in HB2. rewrite <- HB2, Hb. reflexivity.
    - apply Forall_app; split; assumption.
    - apply Forall_app; split; assumption.
    - rewrite Hres. simpl. rewrite absorb_app, Hst.
      rewrite set_textBuffer_twice, !absorb_set_textBuffer. reflexivity.
    - rewrite Hres. simpl.
      destruct Hrests2
        as [Hb2 Hno | ls0 l Hb2 Hls Hd | l l1 R HB' Hb2 Hl Hl1 Hr Hr1].
      + apply rests_drained; assumption.
      + apply (rests_done _ _ _ (ls ++ ls0) l); auto.
        rewrite Hls, app_assoc; reflexivity.
      + apply (rests_stuck _ _ _ l l1 R); assumption. }
  destruct Hrests as [Hb Hno | ls0 l Hb Hls Hd | l l1 R HB Hb Hl Hl1 Hr Hr1].
  - apply Hfree; exact Hb.
  - apply Hfree; exact Hb.
  - destruct (line_loop_stuck (set_textBuffer (textBuffer st ++ value) st)
                l1 (R ++ value)) as (l2 & Hres & Hl2 & Hr2); auto.
    { simpl. rewrite Hb, <- app_assoc. reflexivity. }
    exists ls, (l ++ LF :: R ++ value).
    split; [|split; [|split; [|split]]]; auto.
    + rewrite HP, HB, <- !app_assoc. reflexivity.
    + rewrite Hres. simpl textBuffer. rewrite !set_textBuffer_twice.
      rewrite Hst at 1. apply set_textBuffer_twice.
    + rewrite Hres. simpl.
      apply (rests_stuck _ _ _ l l2 (R ++ value)); auto.
Qed.

(** The read loop after any chunks: the session is the one [reached] for
    the text of all the chunks. *)
Lemma read_loop_reached (chunks : list jsstring) (fin : StreamEnd)
  (st0 st : Session) (P : jsstring) :
  reached st0 P st ->
  reached st0 (P ++ concat chunks) (snd (read_loop chunks fin st)) /\
  fst (read_loop chunks fin st) =
    match fin with EndOfStream => None | ReadError m => Some m end.
Proof.
  revert st P; induction chunks as [|value chunks IH]; intros st P H.
  - simpl. rewrite app_nil_r. destruct fin; auto.
  - simpl. rewrite app_assoc. apply IH. apply reached_chunk. exact H.
Qed.

(** *** The deltas in the transcript *)

Lemma last_message_snoc (M : list Message) (m : Message) :
  last_message (M ++ [m]) = Some m.
Proof.
  unfold last_message. rewrite length_app. simpl.
  replace (length M + 1 - 1)%nat with (length M) by lia.
  rewrite nth_error_app2, Nat.sub_diag by lia. reflexivity.
Qed.

Lemma map_indexed_last (f : Message -> Message) (M : list Message)
  (m : Message) (k : nat) :
  map_indexed (fun x i => if Nat.eqb i (k + length M) then f x else x) k
    (M ++ [m]) = M ++ [f m].
Proof.
  revert k; induction M as [|x M IH]; intros k; simpl.
  - rewrite Nat.add_0_r, Nat.eqb_refl. reflexivity.
  - replace (Nat.eqb k (k + S (length M))) with false
      by (symmetry; apply Nat.eqb_neq; lia).
    f_equal. rewrite <- (IH (S k)).
    replace (S k + length M)%nat with (k + S (length M))%nat by lia.
    reflexivity.
Qed.

Lemma absorb_feed (ls : list jsstring) (st : Session) :
  absorb ls st = feed (deltas_of ls) st.
Proof.
  revert st; induction ls as [|l ls IH]; intros st; [reflexivity|].
  rewrite absorb_cons, IH. unfold absorb_line. simpl.
  destruct (delta_of l); reflexivity.
Qed.

Lemma deltas_of_app (a b : list jsstring) :
  deltas_of (a ++ b) = deltas_of a ++ deltas_of b.
Proof.
  induction a as [|l a IH]; simpl; [reflexivity|].
  destruct (delta_of l); simpl; rewrite IH; reflexivity.
Qed.

Lemma startsWith_app (p x : jsstring) : startsWith (p ++ x) p = true.
Proof.
  induction p as [|c p IH]; simpl; [destruct x; reflexivity|].
  rewrite N.eqb_refl. exact IH.
Qed.

(** A delta met while the last turn is the session's own extends it. *)
Lemma apply_delta_open (d buf a c x : jsstring) (M : list Message) (t : nat) :
  apply_delta d
    (mkSession buf a (M ++ [mkMessage (lit "ai-" ++ x) assistant c]) t) =
  mkSession buf (a ++ d)
    (M ++ [mkMessage (lit "ai-" ++ x) assistant (a ++ d)]) t.
Proof.
  unfold apply_delta, setMessages_delta, set_assistantSoFar.
  cbn [messages assistantSoFar textBuffer ticks].
  rewrite last_message_snoc. unfold open_turn. cbn [role id Role_eqb andb].
  rewrite startsWith_app. f_equal.
  rewrite length_app. cbn [length].
  replace (length M + 1 - 1)%nat with (0 + length M)%nat by lia.
  exact (map_indexed_last (fun m => mkMessage (id m) (role m) (a ++ d)) M
           (mkMessage (lit "ai-" ++ x) assistant c) 0).
Qed.

(** A delta met while the last turn is not the session's own opens one. *)
Lemma apply_delta_fresh (d buf a : jsstring) (M : list Message) (t : nat) :
  open_turn (last_message M) = false ->
  apply_delta d (mkSession buf a M t) =
  mkSession buf (a ++ d)
    (M ++ [mkMessage (lit "ai-" ++ decimal (Date_now t)) assistant (a ++ d)])
    (S t).
Proof.
  intros Hopen. unfold apply_delta, setMessages_delta, set_assistantSoFar.
  cbn [messages assistantSoFar textBuffer ticks].
  rewrite Hopen. reflexivity.
Qed.

Lemma feed_cons (d : jsstring) (ds : list jsstring) (st : Session) :
  feed (d :: ds) st = feed ds (apply_delta d st).
Proof. reflexivity. Qed.

Lemma feed_open (ds : list jsstring) (buf a x : jsstring)
  (M : list Message) (t : nat) :
  feed ds (mkSession buf a (M ++ [mkMessage (lit "ai-" ++ x) assistant a]) t) =
  mkSession buf (a ++ concat ds)
    (M ++ [mkMessage (lit "ai-" ++ x) assistant (a ++ concat ds)]) t.
Proof.
  revert a; induction ds as [|d ds IH]; intros a.
  - cbn [concat]. rewrite app_nil_r. reflexivity.
  - rewrite feed_cons, apply_delta_open, IH. cbn [concat].
    rewrite <- app_assoc. reflexivity.
Qed.

(** The first delta met while the last turn is not the session's own opens
    a turn, and the later ones extend it. *)
Lemma feed_fresh (d : jsstring) (ds : list jsstring) (buf a : jsstring)
  (M : list Message) (t : nat) :
  open_turn (last_message M) = false ->
  feed (d :: ds) (mkSession buf a M t) =
  mkSession buf (a ++ concat (d :: ds))
    (M ++ [mkMessage (lit "ai-" ++ decimal (Date_now t)) assistant
             (a ++ concat (d :: ds))])
    (S t).
Proof.
  intros Hopen. rewrite feed_cons, (apply_delta_fresh _ _ _ _ _ Hopen).
  rewrite feed_open. cbn [concat]. rewrite <- app_assoc. reflexivity.
Qed.

(** The session that starts behind a turn of the user, after the deltas
    [ds]. *)
Lemma feed_after_user (ds : list jsstring) (M : list Message) (u : Message)
  (t : nat) :
  role u = user ->
  messages (feed ds (mkSession [] [] (M ++ [u]) t)) =
    M ++ u :: reply_turn (Date_now t) ds /\
  assistantSoFar (feed ds (mkSession [] [] (M ++ [u]) t)) = concat ds /\
  ticks (feed ds (mkSession [] [] (M ++ [u]) t)) =
    match ds with [] => t | _ :: _ => S t end.
Proof.
  intros Hu. destruct ds as [|d ds].
  - cbn. auto.
  - rewrite feed_fresh.
    + cbn [messages assistantSoFar ticks reply_turn app].
      rewrite <- app_assoc. auto.
    + rewrite last_message_snoc. unfold open_turn. rewrite Hu. reflexivity.
Qed.

(** *** Lines of a text *)

Lemma In_join_cons (l : jsstring) (ls : list jsstring) (X : jsstring) :
  In LF (join (l :: ls) ++ X).
Proof.
  rewrite join_cons, <- app_assoc. apply in_or_app. right. left. reflexivity.
Qed.

(** Two ways of reading full lines off one text: the lines of one are the
    first lines of the other. *)
Lemma join_prefix_cases (a b : list jsstring) (X Y : jsstring) :
  Forall nolf a -> Forall nolf b -> join a ++ X = join b ++ Y ->
  (exists m, b = a ++ m /\ X = join m ++ Y) \/
  (exists m, a = b ++ m /\ Y = join m ++ X).
Proof.
  revert b; induction a as [|x a IH]; intros b Ha Hb H.
  - left. exists b. auto.
  - destruct b as [|y b].
    + right. exists (x :: a). split; [reflexivity | symmetry; exact H].
    + rewrite !join_cons, <- !app_assoc in H. simpl in H.
      inversion Ha as [|? ? Hx Ha']; inversion Hb as [|? ? Hy Hb']; subst.
      destruct (cut_unique _ _ _ _ Hx Hy H) as [-> H'].
      destruct (IH b Ha' Hb' H') as [(m & -> & HX)|(m & -> & HY)].
      * left. exists m. auto.
      * right. exists m. auto.
Qed.

(** Every line of [pre] passes through the body, so the read loop has gone
    through all of them, whatever it met behind them. *)
Lemma reached_covers (st0 st : Session) (pre : list jsstring)
  (tail : jsstring) :
  reached st0 (join pre ++ tail) st ->
  Forall nolf pre -> Forall (fun l => is_pass l = true) pre ->
  exists more B,
    tail = join more ++ B /\
    Forall nolf more /\
    Forall (fun l => is_requeue l = false) more /\
    st = set_textBuffer (textBuffer st) (absorb (pre ++ more) st0) /\
    rests (pre ++ more) B (textBuffer st).
Proof.
  intros (ls & B & HP & Hnl & Hnr & Hst & Hrests) Hpn Hpp.
  symmetry in HP.
  destruct (join_prefix_cases ls pre B tail Hnl Hpn HP)
    as [(m & Hpre & HB)|(m & Hls & Htail)].
  - (* the loop would have stopped inside [pre]: it cannot *)
    destruct m as [|l m].
    + rewrite app_nil_r in Hpre. subst pre. simpl in HB. subst B.
      exists [], tail. rewrite app_nil_r.
      split; [reflexivity|]. split; [constructor|]. split; [constructor|].
      split; assumption.
    + exfalso.
      assert (Hl : nolf l /\ is_pass l = true).
      { subst pre. apply Forall_app in Hpn, Hpp.
        destruct Hpn as [_ Hpn], Hpp as [_ Hpp].
        inversion Hpn; inversion Hpp; subst; auto. }
      destruct Hl as [Hln Hlp].
      destruct Hrests as [Hb Hno | ls0 l' Hb Hls Hd | l' l1 R HB' Hb Hl' Hl1 Hr Hr1].
      * apply indexOf_None in Hno. apply Hno. rewrite HB. apply In_join_cons.
      * assert (Hp' : is_pass l' = true).
        { subst pre ls. rewrite Forall_app in Hpp. destruct Hpp as [Hpp _].
          rewrite Forall_app in Hpp. destruct Hpp as [_ Hpp].
          inversion Hpp; auto. }
        unfold is_pass in Hp'. unfold is_done in Hd.
        destruct (verdict_of l'); discriminate.
      * rewrite HB, join_cons, <- app_assoc in HB'. simpl in HB'.
        destruct (cut_unique _ _ _ _ Hln Hl' HB') as [<- _].
        unfold is_pass in Hlp. unfold is_requeue in Hr.
        destruct (verdict_of l); discriminate.
  - subst ls. exists m, B.
    apply Forall_app in Hnl, Hnr.
    destruct Hnl as [_ Hnl], Hnr as [_ Hnr].
    repeat split; assumption.
Qed.

(** *** [handleSend] over a streamed response *)

Lemma single_lines_nolf (ls : list jsstring) :
  forallb single_line ls = true -> Forall nolf ls.
Proof.
  rewrite forallb_forall, Forall_forall. intros H l Hl.
  specialize (H l Hl). unfold single_line in H.
  destruct (indexOf l LF) eqn:Hi; [discriminate|].
  apply indexOf_None; exact Hi.
Qed.

Lemma forallb_Forall {A : Type} (f : A -> bool) (l : list A) :
  forallb f l = true -> Forall (fun x => f x = true) l.
Proof. rewrite forallb_forall, Forall_forall. auto. Qed.

Lemma no_delta_deltas (ls : list jsstring) :
  forallb no_delta ls = true -> deltas_of ls = [].
Proof.
  induction ls as [|l ls IH]; simpl; [reflexivity|].
  rewrite andb_true_iff. unfold no_delta at 1.
  destruct (delta_of l); intros [H1 H2]; [discriminate | exact (IH H2)].
Qed.

(** What a send over a response with a body leaves: the transcript of the
    session the read loop reached and, when the body broke, the error
    turn. *)
Lemma handleSend_stream (prev : list Message) (input : jsstring)
  (att : option Attachment) (isLoading : bool) (status : N)
  (chunks : list jsstring) (fin : StreamEnd) :
  refused input att isLoading = false -> ok_status status = true ->
  exists st,
    reached (session0 prev input att) (concat chunks) st /\
    handleSend prev input att isLoading
      (FetchResponse status (Some (chunks, fin))) =
    messages st ++
    match fin with
    | EndOfStream => []
    | ReadError m => [error_turn (Date_now (ticks st)) m]
    end.
Proof.
  intros Hg Hok. unfold handleSend, try_send. rewrite Hg, Hok. simpl negb.
  cbv iota.
  destruct (read_loop_reached chunks fin (session0 prev input att)
              (session0 prev input att) []
              (reached_start (session0 prev input att) eq_refl))
    as [Hr Hf].
  simpl app in Hr.
  destruct (read_loop chunks fin (session0 prev input att)) as [e st] eqn:Hrl.
  simpl in Hr, Hf. exists st. split; [exact Hr|].
  subst e. destruct fin; [rewrite app_nil_r|]; reflexivity.
Qed.

(** The transcript of a session that went through the lines [ls]. *)
Lemma messages_absorbed (prev : list Message) (input : jsstring)
  (att : option Attachment) (ls : list jsstring) (st : Session) :
  st = set_textBuffer (textBuffer st) (absorb ls (session0 prev input att)) ->
  messages st =
    prev ++ displayMsg input att :: reply_turn (Date_now 1) (deltas_of ls) /\
  assistantSoFar st = concat (deltas_of ls) /\
  ticks st = match deltas_of ls with [] => 1%nat | _ :: _ => 2%nat end.
Proof.
  intros ->. rewrite absorb_feed. unfold session0.
  destruct (feed_after_user (deltas_of ls) prev (displayMsg input att) 1
              eq_refl) as (Hm & Ha & Ht).
  cbn [messages assistantSoFar ticks set_textBuffer]. auto.
Qed.

(** Read to its end without a sentinel or a line that throws on the way,
    a text made of full lines has all of them gone through. *)
Lemma reached_all (st0 st : Session) (pre post : list jsstring) :
  reached st0 (join (pre ++ post)) st ->
  Forall nolf (pre ++ post) -> Forall (fun l => is_pass l = true) pre ->
  exists more rest,
    post = more ++ rest /\
    st = set_textBuffer (textBuffer st) (absorb (pre ++ more) st0).
Proof.
  intros Hr Hn Hp. rewrite join_app in Hr.
  apply Forall_app in Hn. destruct Hn as [Hn1 Hn2].
  destruct (reached_covers _ _ _ _ Hr Hn1 Hp)
    as (more & B & Htail & Hnm & _ & Hst & _).
  assert (H : join more ++ B = join post ++ [])
    by (rewrite app_nil_r; symmetry; exact Htail).
  destruct (join_prefix_cases more post B [] Hnm Hn2 H)
    as [(m & Hpost & _)|(m & Hmore & Hnil)].
  - exists more, m. auto.
  - destruct m as [|l m].
    + rewrite app_nil_r in Hmore. subst more. exists post, [].
      rewrite app_nil_r. auto.
    + exfalso. pose proof (In_join_cons l m B) as Hin.
      rewrite <- Hnil in Hin. exact Hin.
Qed.

(** A stream of full lines that pass through the body, then lines that
    add nothing, in whatever chunks it comes. *)
Lemma handleSend_passing_lines (prev : list Message) (input : jsstring)
  (att : option Attachment) (isLoading : bool) (status : N)
  (chunks lines closing : list jsstring) :
  refused input att isLoading = false -> ok_status status = true ->
  concat chunks = join (lines ++ closing) ->
  forallb single_line (lines ++ closing) = true ->
  forallb is_pass lines = true ->
  forallb no_delta closing = true ->
  handleSend prev input att isLoading
    (FetchResponse status (Some (chunks, EndOfStream))) =
  prev ++ displayMsg input att :: reply_turn (Date_now 1) (deltas_of lines).
Proof.
  intros Hg Hok Hc Hsl Hp Hnd.
  destruct (handleSend_stream prev input att isLoading status chunks
              EndOfStream Hg Hok) as (st & Hr & ->).
  rewrite app_nil_r. rewrite Hc in Hr.
  destruct (reached_all _ _ _ _ Hr (single_lines_nolf _ Hsl)
              (forallb_Forall _ _ Hp)) as (more & rest & Hcl & Hst).
  destruct (messages_absorbed _ _ _ _ _ Hst) as (-> & _ & _).
  rewrite deltas_of_app.
  assert (Hmore : deltas_of more = []).
  { apply no_delta_deltas. rewrite Hcl, forallb_app in Hnd.
    apply andb_true_iff in Hnd. tauto. }
  rewrite Hmore, app_nil_r. reflexivity.
Qed.


Lemma trim_nil_iff (s : jsstring) :
  trim s = [] <-> forallb is_js_space s = true.
Proof.
  split.
  - intros Ht. destruct (forallb is_js_space s) eqn:Hall; [reflexivity|].
    exfalso.
    assert (Hex : exists c, In c s /\ is_js_space c = false).
    { clear Ht. induction s as [|x s IH]; simpl in Hall; [discriminate|].
      destruct (is_js_space x) eqn:Hx.
      - destruct (IH Hall) as (c & Hin & Hc). exists c; split; [right|]; auto.
      - exists x; split; [left|]; auto. }
    destruct Hex as (c & Hin & Hc).
    pose proof (trim_nonempty s c Hin Hc) as Hne.
    rewrite Ht in Hne. discriminate.
  - intros Hall. unfold trim. rewrite (trim_start_all_space s Hall).
    reflexivity.
Qed.

Lemma forallb_removelast (f : N -> bool) (s : jsstring) :
  forallb f s = true -> forallb f (removelast s) = true.
Proof.
  induction s as [|x s IH]; simpl; [auto|].
  destruct s as [|y s]; [reflexivity|].
  rewrite andb_true_iff. intros [Hx H]. cbn [forallb].
  rewrite Hx. exact (IH H).
Qed.

Lemma strip_cr_comment (line : jsstring) :
  startsWith line (lit ":") = true ->
  startsWith (strip_cr line) (lit ":") = true.
Proof.
  intros H. unfold strip_cr, drop_last.
  destruct (endsWith line [CR]) eqn:He; [|exact H].
  change (lit ":") with [58] in *.
  apply startsWith_cons_inv in H. destruct H as (x & -> & _).
  destruct x as [|y x]; [discriminate|].
  change (removelast (58 :: y :: x)) with (58 :: removelast (y :: x)).
  cbn [startsWith]. rewrite N.eqb_refl.
  destruct (removelast (y :: x)); reflexivity.
Qed.

Lemma strip_cr_blank (line : jsstring) :
  trim line = [] -> trim (strip_cr line) = [].
Proof.
  intros H. unfold strip_cr, drop_last.
  destruct (endsWith line [CR]); [|exact H].
  apply trim_nil_iff, forallb_removelast, trim_nil_iff. exact H.
Qed.

Lemma data_line_not_skipped (l : jsstring) :
  startsWith l (lit "data: ") = true ->
  startsWith l (lit ":") || str_eqb (trim l) [] = false.
Proof.
  intros H. change (lit "data: ") with (100 :: lit "ata: ") in H.
  apply startsWith_cons_inv in H. destruct H as (y & -> & _).
  change (startsWith (100 :: y) (lit ":")) with false. cbn [orb].
  apply (trim_nonempty _ 100); [left; reflexivity | reflexivity].
Qed.

Lemma loop_body_unfold (line : jsstring) (st : Session) :
  loop_body line st =
  if startsWith (strip_cr line) (lit ":") || str_eqb (trim (strip_cr line)) []
  then (Continue, st)
  else if negb (startsWith (strip_cr line) (lit "data: ")) then (Continue, st)
  else if str_eqb (trim (skipn 6 (strip_cr line))) (lit "[DONE]")
  then (Break, st)
  else match try_block (trim (skipn 6 (strip_cr line))) st with
       | Some st' => (Continue, st')
       | None =>
           (Break, set_textBuffer (strip_cr line ++ LF :: textBuffer st) st)
       end.
Proof. reflexivity. Qed.

(** *** The buffer behind a line that passes *)

Lemma loop_body_continue_buffer (l : jsstring) (st st2 : Session) :
  loop_body l st = (Continue, st2) -> textBuffer st2 = textBuffer st.
Proof.
  rewrite loop_body_verdict.
  destruct (verdict_of l) as [[s|]| |l']; intros H; inversion H; subst;
    [|reflexivity].
  rewrite <- (set_textBuffer_same st) at 1.
  rewrite apply_delta_set_textBuffer. reflexivity.
Qed.

(** *** Two ways of chunking one text *)

Lemma full_lines_from_cut (cur l r : jsstring) :
  nolf l ->
  full_lines_from cur (l ++ LF :: r) = (rev cur ++ l) :: full_lines r.
Proof.
  revert cur; induction l as [|c l IH]; intros cur Hn.
  - simpl. rewrite app_nil_r. reflexivity.
  - cbn [app full_lines_from].
    destruct (N.eqb_spec c LF) as [->|_].
    + exfalso; apply Hn; left; reflexivity.
    + rewrite IH by (intros Hin; apply Hn; right; exact Hin).
      cbn [rev]. rewrite <- app_assoc. reflexivity.
Qed.

Lemma full_lines_join (ls : list jsstring) (B : jsstring) :
  Forall nolf ls -> full_lines (join ls ++ B) = ls ++ full_lines B.
Proof.
  induction 1 as [|l ls Hl Hls IH]; [reflexivity|].
  rewrite join_cons, <- app_assoc. cbn [app].
  unfold full_lines at 1. rewrite (full_lines_from_cut [] l _ Hl).
  rewrite IH. reflexivity.
Qed.

(** With no sentinel among its full lines, a text leads the read loop to
    one session, however it is chunked: the lines gone through are those
    before the first line that throws. *)
Lemma reached_lines_unique (buf T : jsstring)
  (ls1 ls2 : list jsstring) (B1 B2 : jsstring) :
  forallb (fun l => negb (is_done l)) (full_lines T) = true ->
  T = join ls1 ++ B1 -> T = join ls2 ++ B2 ->
  Forall nolf ls1 -> Forall nolf ls2 ->
  Forall (fun l => is_requeue l = false) ls2 ->
  rests ls1 B1 buf ->
  exists m, ls1 = ls2 ++ m.
Proof.
  intros Hnd H1 H2 Hn1 Hn2 Hr2 Hrests.
  assert (H12 : join ls1 ++ B1 = join ls2 ++ B2) by congruence.
  destruct (join_prefix_cases ls1 ls2 B1 B2 Hn1 Hn2 H12)
    as [(m & Hm & HB)|(m & Hm & _)]; [|exists m; exact Hm].
  destruct m as [|l m].
  { exists []. rewrite app_nil_r in *. congruence. }
  exfalso.
  destruct Hrests as [Hb Hno | ls0 l' Hb Hls Hd | l' l1 R HB' Hb Hl' Hl1 Hr Hr1].
  - apply indexOf_None in Hno. apply Hno. rewrite HB. apply In_join_cons.
  - rewrite H1, (full_lines_join ls1 B1 Hn1), forallb_app in Hnd.
    apply andb_true_iff in Hnd. destruct Hnd as [Hnd _].
    rewrite Hls, forallb_app in Hnd.
    apply andb_true_iff in Hnd. destruct Hnd as [_ Hnd].
    simpl in Hnd. rewrite Hd in Hnd. discriminate.
  - assert (Hl : nolf l /\ is_requeue l = false).
    { subst ls2. apply Forall_app in Hn2, Hr2.
      destruct Hn2 as [_ Hn2], Hr2 as [_ Hr2].
      inversion Hn2; inversion Hr2; subst; auto. }
    destruct Hl as [Hln Hlr].
    rewrite HB, join_cons, <- app_assoc in HB'. cbn [app] in HB'.
    destruct (cut_unique _ _ _ _ Hln Hl' HB') as [<- _].
    congruence.
Qed.

(** *** The data line of a delta *)

Lemma lex_from_app (st : lex_state) (a b : jsstring) :
  lex_from st (a ++ b) =
  match lex_run st a with
  | None => None
  | Some (ts, st') =>
      match lex_from st' b with
      | None => None
      | Some r => Some (ts ++ r)
      end
  end.
Proof.
  revert st; induction a as [|c a IH]; intros st; simpl.
  - destruct (lex_from st b); reflexivity.
  - destruct (lex_step st c) as [[ts st']|]; [|reflexivity].
    rewrite IH. destruct (lex_run st' a) as [[ts' st'']|]; [|reflexivity].
    destruct (lex_from st'' b); [|reflexivity].
    rewrite app_assoc. reflexivity.
Qed.

Lemma lex_run_plain (d acc : jsstring) :
  forallb plain d = true ->
  lex_run (LStr acc) d = Some ([], LStr (rev d ++ acc)).
Proof.
  revert acc; induction d as [|c d IH]; intros acc; [reflexivity|].
  cbn [forallb]. rewrite andb_true_iff. intros [Hc Hd].
  unfold plain in Hc. rewrite !andb_true_iff, !negb_true_iff in Hc.
  destruct Hc as [[H32 H34] H92].
  cbn [lex_run lex_step]. rewrite H34, H92.
  replace (c <? 32) with false
    by (symmetry; apply N.ltb_ge; apply N.leb_le; exact H32).
  rewrite (IH (c :: acc) Hd). cbn [rev app]. rewrite <- app_assoc.
  reflexivity.
Qed.

Lemma JSON_parse_payload_text (d : jsstring) :
  forallb plain d = true ->
  JSON_parse (payload_text d) =
  Some (JObject
          [(lit "choices",
            JArray
              [JObject [(lit "delta", JObject [(lit "content", JString d)])]])]).
Proof.
  intros Hd. unfold JSON_parse, payload_text.
  rewrite lex_from_app.
  replace (lex_run LIdle (qlit "{'choices':[{'delta':{'content':'"))
    with (Some ([TLBrace; TString (lit "choices"); TColon; TLBracket; TLBrace;
                 TString (lit "delta"); TColon; TLBrace;
                 TString (lit "content"); TColon], LStr []))
    by (vm_compute; reflexivity).
  rewrite lex_from_app, (lex_run_plain d [] Hd), app_nil_r.
  replace (lex_from (LStr (rev d)) (qlit "'}}]}"))
    with (Some [TString (rev (rev d)); TRBrace; TRBrace; TRBracket; TRBrace])
    by (vm_compute; reflexivity).
  rewrite rev_involutive. reflexivity.
Qed.

Lemma trim_bounded (c e : N) (m : jsstring) :
  is_js_space c = false -> is_js_space e = false ->
  trim (c :: m ++ [e]) = c :: m ++ [e].
Proof.
  intros Hc He. unfold trim. cbn [trim_start]. rewrite Hc.
  replace (rev (c :: m ++ [e])) with (e :: rev m ++ [c])
    by (cbn [rev]; rewrite rev_app_distr; reflexivity).
  cbn [trim_start]. rewrite He. cbn [rev].
  rewrite rev_app_distr, rev_involutive. reflexivity.
Qed.

Lemma payload_text_shape (d : jsstring) :
  payload_text d =
  123 :: (qlit "'choices':[{'delta':{'content':'" ++ d ++ qlit "'}}]")
    ++ [125].
Proof.
  unfold payload_text.
  change (qlit "{'choices':[{'delta':{'content':'")
    with (123 :: qlit "'choices':[{'delta':{'content':'").
  change (qlit "'}}]}") with (qlit "'}}]" ++ [125]).
  cbn [app]. rewrite <- !app_assoc. reflexivity.
Qed.

Lemma endsWith_last_unit (a : jsstring) (c e : N) :
  endsWith (a ++ [c]) [e] = (e =? c).
Proof.
  unfold endsWith. rewrite rev_app_distr. cbn [rev app startsWith].
  destruct (rev a); apply andb_true_r.
Qed.

(** The data line of a plain delta passes through the body with its
    delta. *)
Lemma delta_of_data_line (d : jsstring) :
  plain_delta d = true ->
  delta_of (data_line d) = Some d /\ nolf (data_line d).
Proof.
  unfold plain_delta. rewrite andb_true_iff, negb_true_iff.
  intros [Hne Hd]. split.
  - unfold delta_of, verdict_of.
    assert (Hcr : endsWith (data_line d) [CR] = false).
    { unfold data_line. rewrite payload_text_shape.
      change (lit "data: " ++ 123 :: (qlit "'choices':[{'delta':{'content':'"
                                         ++ d ++ qlit "'}}]") ++ [125])
        with ((lit "data: " ++ 123 :: (qlit "'choices':[{'delta':{'content':'"
                                         ++ d ++ qlit "'}}]")) ++ [125]).
      rewrite endsWith_last_unit. reflexivity. }
    rewrite Hcr.
    rewrite (data_line_not_skipped (data_line d))
      by (unfold data_line; apply startsWith_app).
    replace (startsWith (data_line d) (lit "data: ")) with true
      by (symmetry; unfold data_line; apply startsWith_app).
    cbn [negb].
    change (skipn 6 (data_line d)) with (payload_text d).
    assert (Htrim : trim (payload_text d) = payload_text d).
    { rewrite (payload_text_shape d). apply trim_bounded; reflexivity. }
    rewrite Htrim.
    replace (str_eqb (payload_text d) (lit "[DONE]")) with false
      by (rewrite (payload_text_shape d); reflexivity).
    unfold payload_delta. rewrite (JSON_parse_payload_text d Hd).
    change (delta_content
              (JObject
                 [(lit "choices",
                   JArray
                     [JObject
                        [(lit "delta",
                          JObject [(lit "content", JString d)])]])]))
      with (Some (Some (JString d))).
    cbn [truthy ToString]. rewrite Hne. reflexivity.
  - unfold nolf, data_line, payload_text. intros Hin.
    apply in_app_or in Hin. destruct Hin as [Hin|Hin].
    { vm_compute in Hin. intuition discriminate. }
    apply in_app_or in Hin. destruct Hin as [Hin|Hin].
    { vm_compute in Hin. intuition discriminate. }
    apply in_app_or in Hin. destruct Hin as [Hin|Hin].
    + rewrite forallb_forall in Hd. specialize (Hd _ Hin).
      vm_compute in Hd. discriminate.
    + vm_compute in Hin. intuition discriminate.
Qed.

Lemma data_lines_pass (ds : list jsstring) :
  forallb plain_delta ds = true ->
  forallb single_line (map data_line ds) = true /\
  forallb is_pass (map data_line ds) = true /\
  deltas_of (map data_line ds) = ds.
Proof.
  induction ds as [|d ds IH]; [auto|].
  cbn [forallb map deltas_of]. rewrite andb_true_iff. intros [Hd Hds].
  destruct (IH Hds) as (H1 & H2 & H3).
  destruct (delta_of_data_line d Hd) as [Hdelta Hn].
  rewrite H1, H2, H3, Hdelta.
  assert (Hs : single_line (data_line d) = true).
  { unfold single_line. apply indexOf_None in Hn. rewrite Hn. reflexivity. }
  assert (Hp : is_pass (data_line d) = true).
  { unfold is_pass. unfold delta_of in Hdelta.
    destruct (verdict_of (data_line d)); [reflexivity | discriminate..]. }
  rewrite Hs, Hp. auto.
Qed.

(** *** The ids *)




(** *** Three sends, whatever the engine and the clock *)


(** [data:] with no space behind the colon: the line is skipped, and the
    send leaves no reply; with the space the delta is read. *)
Lemma send_data_without_space :
  loop_body (qlit "data:{'choices':[{'delta':{'content':'X'}}]}")
    (mkSession [] [] [] 1) = (Continue, mkSession [] [] [] 1) /\
  handleSend [] (lit "hi") None false
    (FetchResponse 200
       (Some ([qlit "data:{'choices':[{'delta':{'content':'X'}}]}" ++ [LF]],
              EndOfStream))) =
  [displayMsg (lit "hi") None] /\
  handleSend [] (lit "hi") None false
    (FetchResponse 200
       (Some ([qlit "data: {'choices':[{'delta':{'content':'X'}}]}" ++ [LF]],
              EndOfStream))) =
  [displayMsg (lit "hi") None;
   mkMessage (lit "ai-" ++ decimal (Date_now 1)) assistant (lit "X")].
Proof. repeat split; vm_compute; reflexivity. Qed.

(** Status 500 with the body [{"error":"rate limited"}]: a turn of the
    assistant is appended, the error turn. And with an [error] member that
    is the empty string the message is not that member. *)
Lemma send_failed_status :
  handleSend [] (lit "hi") None false
    (FetchResponse 500
       (Some ([qlit "{'error':'rate limited'}"], EndOfStream))) =
  [displayMsg (lit "hi") None;
   mkMessage (lit "err-" ++ decimal (Date_now 1)) assistant
     (lit "Sorry, I encountered an error: rate limited. Please try again.")] /\
  handleSend [] (lit "hi") None false
    (FetchResponse 500 (Some ([qlit "{'error':''}"], EndOfStream))) =
  [displayMsg (lit "hi") None;
   mkMessage (lit "err-" ++ decimal (Date_now 1)) assistant
     (lit "Sorry, I encountered an error: Error 500. Please try again.")].
Proof. split; vm_compute; reflexivity. Qed.

(** ** The claims *)

(** C1. Every delta of a session lands in one assistant turn, whose content
    is the deltas joined in the order of arrival: for a stream of full lines
    that pass through the body, followed by lines that add nothing (the
    sentinel), in whatever chunks the text comes, [handleSend] leaves the
    transcript, the user's turn and, when there is a delta, one new turn
    that holds them all. So it is for the data lines of any plain deltas
    [ds], and the three lines with the deltas [Hel] and [lo] and the
    sentinel give one new turn, [Hello]. *)
Theorem deltas_fill_one_turn :
  (forall prev input att isLoading status
          (chunks lines closing : list jsstring),
      refused input att isLoading = false -> ok_status status = true ->
      forallb single_line (lines ++ closing) = true ->
      forallb is_pass lines = true ->
      forallb no_delta closing = true ->
      concat chunks = join (lines ++ closing) ->
      handleSend prev input att isLoading
        (FetchResponse status (Some (chunks, EndOfStream))) =
      prev ++ displayMsg input att
        :: reply_turn (Date_now 1) (deltas_of lines)) /\
  (forall prev input att isLoading status
          (chunks ds closing : list jsstring),
      refused input att isLoading = false -> ok_status status = true ->
      forallb plain_delta ds = true ->
      forallb single_line closing = true ->
      forallb no_delta closing = true ->
      concat chunks = join (map data_line ds ++ closing) ->
      handleSend prev input att isLoading
        (FetchResponse status (Some (chunks, EndOfStream))) =
      prev ++ displayMsg input att :: reply_turn (Date_now 1) ds) /\
  (forall prev input att isLoading status (chunks : list jsstring),
      refused input att isLoading = false -> ok_status status = true ->
      concat chunks =
        join [qlit "data: {'choices':[{'delta':{'content':'Hel'}}]}";
              qlit "data: {'choices':[{'delta':{'content':'lo'}}]}";
              lit "data: [DONE]"] ->
      handleSend prev input att isLoading
        (FetchResponse status (Some (chunks, EndOfStream))) =
      prev ++ [displayMsg input att;
               mkMessage (lit "ai-" ++ decimal (Date_now 1)) assistant
                 (lit "Hello")]).
Proof.
  assert (Plain : forall prev input att isLoading status
                         (chunks ds closing : list jsstring),
      refused input att isLoading = false -> ok_status status = true ->
      forallb plain_delta ds = true ->
      forallb single_line closing = true ->
      forallb no_delta closing = true ->
      concat chunks = join (map data_line ds ++ closing) ->
      handleSend prev input att isLoading
        (FetchResponse status (Some (chunks, EndOfStream))) =
      prev ++ displayMsg input att :: reply_turn (Date_now 1) ds).
  { intros prev input att isLoading status chunks ds closing
           Hg Hok Hds Hsl Hnd Hc.
    destruct (data_lines_pass ds Hds) as (H1 & H2 & H3).
    rewrite (handleSend_passing_lines prev input att isLoading status chunks
               (map data_line ds) closing Hg Hok Hc); [| |exact H2|exact Hnd].
    - rewrite H3. reflexivity.
    - rewrite forallb_app, H1, Hsl. reflexivity. }
  split; [|split; [exact Plain|]].
  - intros prev input att isLoading status chunks lines closing
           Hg Hok Hsl Hp Hnd Hc.
    exact (handleSend_passing_lines prev input att isLoading status chunks
             lines closing Hg Hok Hc Hsl Hp Hnd).
  - intros prev input att isLoading status chunks Hg Hok Hc.
    exact (Plain prev input att isLoading status chunks
             [lit "Hel"; lit "lo"] [lit "data: [DONE]"] Hg Hok
             eq_refl eq_refl eq_refl Hc).
Qed.

(** C2, the code at the failing input. One text in two ways of chunking:
    in one chunk the line behind the sentinel is lost, in two it is folded
    into the transcript. *)
Theorem chunking_changes_the_transcript :
  concat [lit "data: [DONE]" ++ [LF]
            ++ qlit "data: {'choices':[{'delta':{'content':'X'}}]}" ++ [LF]] =
  concat [lit "data: [DONE]" ++ [LF];
          qlit "data: {'choices':[{'delta':{'content':'X'}}]}" ++ [LF]] /\
  handleSend [] (lit "hi") None false
    (FetchResponse 200
       (Some ([lit "data: [DONE]" ++ [LF]
                 ++ qlit "data: {'choices':[{'delta':{'content':'X'}}]}"
                 ++ [LF]],
              EndOfStream))) =
  [displayMsg (lit "hi") None] /\
  handleSend [] (lit "hi") None false
    (FetchResponse 200
       (Some ([lit "data: [DONE]" ++ [LF];
               qlit "data: {'choices':[{'delta':{'content':'X'}}]}" ++ [LF]],
              EndOfStream))) =
  [displayMsg (lit "hi") None;
   mkMessage (lit "ai-" ++ decimal (Date_now 1)) assistant (lit "X")].
Proof. repeat split; vm_compute; reflexivity. Qed.

(** C3, the code at the failing input. The sentinel ends the line loop of
    its read only, and the read loop goes on: a data line that comes in a
    later chunk is folded into the transcript, and so is a data line that
    was in the buffer behind the sentinel, once any later chunk (here a
    keep-alive comment) sets the line loop going again. *)
Theorem sentinel_does_not_end_the_read_loop :
  handleSend [] (lit "hi") None false
    (FetchResponse 200
       (Some ([lit "data: [DONE]" ++ [LF];
               qlit "data: {'choices':[{'delta':{'content':'X'}}]}" ++ [LF]],
              EndOfStream))) =
  [displayMsg (lit "hi") None;
   mkMessage (lit "ai-" ++ decimal (Date_now 1)) assistant (lit "X")] /\
  handleSend [] (lit "hi") None false
    (FetchResponse 200
       (Some ([lit "data: [DONE]" ++ [LF]
                 ++ qlit "data: {'choices':[{'delta':{'content':'X'}}]}"
                 ++ [LF];
               lit ": keep-alive" ++ [LF]],
              EndOfStream))) =
  [displayMsg (lit "hi") None;
   mkMessage (lit "ai-" ++ decimal (Date_now 1)) assistant (lit "X")].
Proof. split; vm_compute; reflexivity. Qed.

(** The [catch] of lines 166-169, for every line whose payload does not
    parse: the line goes back to the head of the buffer without its
    carriage return and with a newline behind it, and the line loop stops
    for this read; the next read cuts the same line off again. *)
Lemma unparsable_line_is_put_back :
  forall (st : Session) (line rest : jsstring),
    textBuffer st = line ++ LF :: rest -> single_line line = true ->
    startsWith (strip_cr line) (lit "data: ") = true ->
    str_eqb (trim (skipn 6 (strip_cr line))) (lit "[DONE]") = false ->
    JSON_parse (trim (skipn 6 (strip_cr line))) = None ->
    line_loop st = set_textBuffer (strip_cr line ++ LF :: rest) st /\
    forall value : jsstring,
      line_loop
        (set_textBuffer (strip_cr line ++ LF :: rest ++ value) st) =
      set_textBuffer (strip_cr (strip_cr line) ++ LF :: rest ++ value) st.
Proof.
  intros st line rest Hb Hs Hd Hnd Hp.
  assert (Hn : nolf line).
  { unfold single_line in Hs. destruct (indexOf line LF) eqn:Hi;
      [discriminate | apply indexOf_None; exact Hi]. }
  assert (Hv : verdict_of line = Requeue (strip_cr line)).
  { apply verdict_requeue_intro; auto using data_line_not_skipped.
    unfold payload_delta. rewrite Hp. reflexivity. }
  assert (Hv2 : verdict_of (strip_cr line) = Requeue (strip_cr (strip_cr line))).
  { pose proof (requeue_again _ _ Hv) as Hr. unfold is_requeue in Hr.
    destruct (verdict_of (strip_cr line)) as [| |l2] eqn:Hv2;
      try discriminate.
    destruct (verdict_requeue_inv _ _ Hv2) as [-> _]. reflexivity. }
  assert (Hloop : forall (s : Session) (l r : jsstring),
             textBuffer s = l ++ LF :: r -> nolf l ->
             verdict_of l = Requeue (strip_cr l) ->
             line_loop s = set_textBuffer (strip_cr l ++ LF :: r) s).
  { intros s l r Hsb Hl Hvl. unfold line_loop.
    assert (Hlen : length (textBuffer s) = S (length l + length r))
      by (rewrite Hsb, length_app; simpl; lia).
    rewrite Hlen, (line_loop_fuel_cut _ s l r Hl Hsb), Hvl. reflexivity. }
  split.
  - apply Hloop; assumption.
  - intros value.
    rewrite (Hloop _ (strip_cr line) (rest ++ value));
      [reflexivity | reflexivity | apply nolf_strip_cr; exact Hn | exact Hv2].
Qed.

(** C4, the code at the failing input. A payload cut in two by a newline
    inside its string; joined, the two lines are one data line with the
    delta [ab]. The [catch] puts the first line back with the newline it was
    cut at behind it, so the line loop leaves the buffer as it found it, the
    next read cuts the same line off again, and the two lines are never
    joined: in one chunk or in two, with or without a later chunk, the send
    leaves no reply, where the claim has the delta extracted once. *)
Theorem split_payload_is_not_repaired :
  delta_of (qlit "data: {'choices':[{'delta':{'content':'a"
              ++ qlit "b'}}]}") = Some (lit "ab") /\
  line_loop
    (mkSession
       (qlit "data: {'choices':[{'delta':{'content':'a" ++ [LF]
          ++ qlit "b'}}]}" ++ [LF])
       [] [displayMsg (lit "hi") None] 1) =
  mkSession
    (qlit "data: {'choices':[{'delta':{'content':'a" ++ [LF]
       ++ qlit "b'}}]}" ++ [LF])
    [] [displayMsg (lit "hi") None] 1 /\
  handleSend [] (lit "hi") None false
    (FetchResponse 200
       (Some ([qlit "data: {'choices':[{'delta':{'content':'a" ++ [LF];
               qlit "b'}}]}" ++ [LF]],
              EndOfStream))) =
  [displayMsg (lit "hi") None] /\
  handleSend [] (lit "hi") None false
    (FetchResponse 200
       (Some ([qlit "data: {'choices':[{'delta':{'content':'a" ++ [LF]
                 ++ qlit "b'}}]}" ++ [LF];
               lit ": keep-alive" ++ [LF]],
              EndOfStream))) =
  [displayMsg (lit "hi") None].
Proof. repeat split; vm_compute; reflexivity. Qed.

(** C5, as the code has it. A response whose status is not a success
    leaves, behind the user's turn, one more turn and no other: the error
    turn, an assistant turn that quotes the message of the failure. That
    message is the [error] member of the body when the body is a JSON
    object and the member a string that is not empty; it is [Error] and
    the status when the body is no JSON, a JSON value that is neither an
    object nor [null], or a JSON object with no [error] member or an empty
    one. Status 500 with the body [{"error":"rate limited"}] gives the
    message [rate limited]. *)
Theorem failed_status_appends_error_turn :
  forall prev input att isLoading (status : N)
         (body : option (list jsstring * StreamEnd)),
    refused input att isLoading = false -> ok_status status = false ->
    handleSend prev input att isLoading (FetchResponse status body) =
      prev ++ [displayMsg input att;
               error_turn (Date_now 1) (status_error_message status body)] /\
    (forall ms s,
        response_json body = JObject ms ->
        own_property ms (lit "error") = Some (JString s) ->
        (s <> [] -> status_error_message status body = s) /\
        (s = [] ->
         status_error_message status body = lit "Error " ++ decimal status)) /\
    (forall ms,
        response_json body = JObject ms ->
        own_property ms (lit "error") = None ->
        status_error_message status body = lit "Error " ++ decimal status) /\
    (forall chunks,
        body = Some (chunks, EndOfStream) ->
        JSON_parse (concat chunks) = None ->
        status_error_message status body = lit "Error " ++ decimal status) /\
    (match response_json body with
     | JObject _ | JNull => True
     | _ => status_error_message status body = lit "Error " ++ decimal status
     end) /\
    (body = Some ([qlit "{'error':'rate limited'}"], EndOfStream) ->
     status_error_message status body = lit "rate limited").
Proof.
  intros prev input att isLoading status body Hg Hok.
  split; [|split; [|split; [|split; [|split]]]].
  - unfold handleSend, try_send. rewrite Hg, Hok.
    unfold session0. cbn [negb messages ticks].
    rewrite <- app_assoc. reflexivity.
  - intros ms s Hj He. unfold status_error_message. rewrite Hj.
    unfold get_named. rewrite He. unfold truthy, ToString.
    split.
    + intros Hs. destruct (str_eqb s []) eqn:Heq; [|reflexivity].
      apply str_eqb_eq in Heq. contradiction.
    + intros ->. reflexivity.
  - intros ms Hj He. unfold status_error_message. rewrite Hj.
    unfold get_named. rewrite He. reflexivity.
  - intros chunks -> Hp. unfold status_error_message, response_json.
    rewrite Hp. reflexivity.
  - unfold status_error_message.
    destruct (response_json body); try exact I; reflexivity.
  - intros ->. reflexivity.
Qed.

(** C6, as the code has it. A line is a data line when it starts with the
    six code units [data: ], the space included: its payload is what
    follows them, trimmed. A line that does not start so -- [data:] with
    no space behind the colon too -- is skipped. *)
Theorem data_prefix_needs_its_space :
  forall (line : jsstring) (st : Session),
    (startsWith (strip_cr line) (lit "data: ") = false ->
     loop_body line st = (Continue, st)) /\
    (startsWith (strip_cr line) (lit "data: ") = true ->
     loop_body line st =
     if str_eqb (trim (skipn 6 (strip_cr line))) (lit "[DONE]")
     then (Break, st)
     else match try_block (trim (skipn 6 (strip_cr line))) st with
          | Some st' => (Continue, st')
          | None =>
              (Break,
               set_textBuffer (strip_cr line ++ LF :: textBuffer st) st)
          end).
Proof.
  intros line st. split; intros H; rewrite loop_body_unfold, H.
  - destruct (_ || _); reflexivity.
  - rewrite (data_line_not_skipped _ H). reflexivity.
Qed.


(** C8. A comment line (it starts with a colon) and a blank line (nothing
    is left of it after [trim]) leave the session as it is, the transcript
    with it, and the line loop goes on. *)
Theorem comment_and_blank_lines_change_nothing :
  forall (line : jsstring) (st : Session),
    startsWith line (lit ":") = true \/ trim line = [] ->
    loop_body line st = (Continue, st).
Proof.
  intros line st H. rewrite loop_body_unfold.
  destruct H as [H|H].
  - rewrite (strip_cr_comment line H). reflexivity.
  - rewrite (strip_cr_blank line H), orb_true_r. reflexivity.
Qed.


(** C10. A payload that parses but holds no content to add -- reading
    [choices[0].delta.content] gives [undefined], [null] or the empty
    string, or throws because the payload is [null] -- leaves the
    transcript, the reply so far and the clock as they were: no turn is
    opened. Unless the read throws, the whole session is left as it was and
    the line loop goes on. *)
Theorem no_content_changes_nothing :
  forall (line : jsstring) (st : Session) (parsed : json),
    JSON_parse (trim (skipn 6 (strip_cr line))) = Some parsed ->
    delta_content parsed = None \/
    delta_content parsed = Some None \/
    delta_content parsed = Some (Some JNull) \/
    delta_content parsed = Some (Some (JString [])) ->
    messages (snd (loop_body line st)) = messages st /\
    assistantSoFar (snd (loop_body line st)) = assistantSoFar st /\
    ticks (snd (loop_body line st)) = ticks st /\
    (delta_content parsed <> None -> loop_body line st = (Continue, st)).
Proof.
  intros line st parsed Hparse Hc. rewrite loop_body_unfold.
  destruct (startsWith (strip_cr line) (lit ":")
            || str_eqb (trim (strip_cr line)) []); [simpl; auto|].
  destruct (negb (startsWith (strip_cr line) (lit "data: "))); [simpl; auto|].
  destruct (str_eqb (trim (skipn 6 (strip_cr line))) (lit "[DONE]")) eqn:Hd.
  { apply str_eqb_eq in Hd. rewrite Hd in Hparse. vm_compute in Hparse.
    discriminate. }
  unfold try_block. rewrite Hparse.
  destruct Hc as [Hc|[Hc|[Hc|Hc]]]; rewrite Hc; simpl; auto.
  repeat split; auto. intros H; exfalso; apply H; reflexivity.
Qed.

(** X1. The part of C2 that holds. A text with no sentinel among its full
    lines leaves the same transcript however it is cut into chunks, for
    every status and every end of the body. *)
Theorem chunking_invariance_without_sentinel :
  forall prev input att isLoading (status : N)
         (chunks1 chunks2 : list jsstring) (fin : StreamEnd),
    concat chunks1 = concat chunks2 ->
    forallb (fun l => negb (is_done l)) (full_lines (concat chunks1)) = true ->
    handleSend prev input att isLoading
      (FetchResponse status (Some (chunks1, fin))) =
    handleSend prev input att isLoading
      (FetchResponse status (Some (chunks2, fin))).
Proof.
  intros prev input att isLoading status chunks1 chunks2 fin Hc Hnd.
  destruct (refused input att isLoading) eqn:Hg.
  { unfold handleSend. rewrite Hg. reflexivity. }
  destruct (ok_status status) eqn:Hok.
  2:{ unfold handleSend, try_send. rewrite Hg, Hok. cbn [negb].
      unfold status_error_message, response_json. rewrite Hc. reflexivity. }
  destruct (handleSend_stream prev input att isLoading status chunks1 fin
              Hg Hok) as (st1 & Hr1 & ->).
  destruct (handleSend_stream prev input att isLoading status chunks2 fin
              Hg Hok) as (st2 & Hr2 & ->).
  rewrite <- Hc in Hr2.
  destruct Hr1 as (ls1 & B1 & HT1 & Hn1 & Hq1 & Hst1 & Hrests1).
  destruct Hr2 as (ls2 & B2 & HT2 & Hn2 & Hq2 & Hst2 & Hrests2).
  destruct (reached_lines_unique _ _ ls1 ls2 B1 B2 Hnd HT1 HT2
              Hn1 Hn2 Hq2 Hrests1) as (m1 & Hm1).
  destruct (reached_lines_unique _ _ ls2 ls1 B2 B1 Hnd HT2 HT1
              Hn2 Hn1 Hq1 Hrests2) as (m2 & Hm2).
  assert (Hls : ls1 = ls2).
  { assert (Hlen : length m1 = O).
    { pose proof (f_equal (@length jsstring) Hm1) as L1.
      pose proof (f_equal (@length jsstring) Hm2) as L2.
      rewrite length_app in L1, L2. lia. }
    destruct m1; [|discriminate]. rewrite app_nil_r in Hm1. exact Hm1. }
  clear Hm1 Hm2. subst ls2.
  destruct (messages_absorbed _ _ _ _ _ Hst1) as (-> & _ & Ht1).
  destruct (messages_absorbed _ _ _ _ _ Hst2) as (-> & _ & Ht2).
  rewrite Ht1, Ht2. reflexivity.
Qed.

(** With fuel for the length of the buffer the line loop does what it
    does with more. *)
Lemma line_loop_fuel_enough (fuel : nat) (st : Session) :
  (length (textBuffer st) <= fuel)%nat ->
  line_loop_fuel fuel st = line_loop st.
Proof.
  unfold line_loop.
  assert (H : forall f1 f2 s,
             (length (textBuffer s) <= f1)%nat ->
             (length (textBuffer s) <= f2)%nat ->
             line_loop_fuel f1 s = line_loop_fuel f2 s).
  { induction f1 as [|f1 IH]; intros f2 s H1 H2.
    - destruct (textBuffer s) eqn:Hb; [|simpl in H1; lia].
      destruct f2; simpl; [reflexivity | rewrite Hb; reflexivity].
    - destruct f2 as [|f2].
      + destruct (textBuffer s) eqn:Hb; [|simpl in H2; lia].
        simpl. rewrite Hb. reflexivity.
      + simpl. destruct (indexOf (textBuffer s) LF) as [i|] eqn:Hi;
          [|reflexivity].
        destruct (loop_body _ _) as [[|] st2] eqn:Hlb; [|reflexivity].
        apply loop_body_continue_buffer in Hlb. simpl in Hlb.
        destruct (indexOf_Some _ _ _ Hi) as [Hs _].
        assert (Hlen : (length (textBuffer st2) < length (textBuffer s))%nat).
        { rewrite Hlb. rewrite Hs at 2. rewrite length_app. simpl. lia. }
        apply IH; lia. }
  intros Hlen. apply H; [exact Hlen | apply le_n].
Qed.

(** X2. The line loop ends. Run with one unit of fuel for each iteration,
    it is left -- no newline in the buffer, or a [break] -- before fuel for
    the length of the buffer is spent, since every iteration that goes on
    takes at least the newline off the buffer; and the session it is left
    in is the one [line_loop] gives. *)
Theorem line_loop_terminates :
  forall (fuel : nat) (st : Session),
    (length (textBuffer st) <= fuel)%nat ->
    line_loop_run fuel st = Some (line_loop st).
Proof.
  intros fuel st Hlen.
  rewrite <- (line_loop_fuel_enough fuel st Hlen).
  revert st Hlen; induction fuel as [|fuel IH]; intros st Hlen.
  - destruct (textBuffer st) eqn:Hb; [|simpl in Hlen; lia].
    cbn [line_loop_run line_loop_fuel]. rewrite Hb. reflexivity.
  - cbn [line_loop_run line_loop_fuel].
    destruct (indexOf (textBuffer st) LF) as [i|] eqn:Hi; [|reflexivity].
    cbv zeta.
    destruct (loop_body _ _) as [[|] st2] eqn:Hlb; [|reflexivity].
    apply IH.
    apply loop_body_continue_buffer in Hlb. simpl in Hlb.
    destruct (indexOf_Some _ _ _ Hi) as [Hs _].
    assert (Hlt : (length (textBuffer st2) < length (textBuffer st))%nat).
    { rewrite Hlb. rewrite Hs at 2. rewrite length_app. simpl. lia. }
    lia.
Qed.

(** X3. When reading the body fails, the reply read so far stays and the
    error turn comes behind it: the transcript is the one the same chunks
    leave when the body ends there, and one error turn more. *)
Theorem read_error_keeps_the_reply :
  forall prev input att isLoading (status : N) (chunks : list jsstring)
         (message : jsstring),
    refused input att isLoading = false -> ok_status status = true ->
    exists now,
      handleSend prev input att isLoading
        (FetchResponse status (Some (chunks, ReadError message))) =
      handleSend prev input att isLoading
        (FetchResponse status (Some (chunks, EndOfStream)))
        ++ [error_turn now message].
Proof.
  intros prev input att isLoading status chunks message Hg Hok.
  assert (H : forall st,
             read_loop chunks (ReadError message) st =
             (Some message, snd (read_loop chunks EndOfStream st)) /\
             fst (read_loop chunks EndOfStream st) = None).
  { induction chunks as [|value chunks IH]; intros st; [auto|].
    cbn [read_loop]. apply IH. }
  unfold handleSend, try_send. rewrite Hg, Hok. cbn [negb].
  destruct (H (session0 prev input att)) as [-> Hnone].
  destruct (read_loop chunks EndOfStream (session0 prev input att))
    as [e st]. cbn [fst snd] in *. subst e.
  eexists. reflexivity.
Qed.

(** ** More of the send *)

(** The read loop only goes through lines: the session it leaves is the one
    it found, taken through some lines, the buffer apart. *)
Lemma read_loop_absorbs (chunks : list jsstring) (fin : StreamEnd)
  (st : Session) :
  exists ls buf,
    snd (read_loop chunks fin st) = set_textBuffer buf (absorb ls st).
Proof.
  revert st; induction chunks as [|value chunks IH]; intros st.
  - exists [], (textBuffer st).
    destruct fin; simpl; symmetry; apply set_textBuffer_same.
  - cbn [read_loop].
    destruct (line_loop_fuel_spec
                (length (textBuffer (set_textBuffer (textBuffer st ++ value) st)))
                (set_textBuffer (textBuffer st ++ value) st) (le_n _))
      as (ls & B & buf & _ & _ & _ & Hres & _).
    fold (line_loop (set_textBuffer (textBuffer st ++ value) st)) in Hres.
    rewrite Hres.
    destruct (IH (set_textBuffer buf
                    (absorb ls (set_textBuffer (textBuffer st ++ value) st))))
      as (ls2 & buf2 & ->).
    exists (ls ++ ls2), buf2.
    rewrite absorb_app, !absorb_set_textBuffer, !set_textBuffer_twice.
    reflexivity.
Qed.

Lemma read_loop_app (chunks1 chunks2 : list jsstring) (fin : StreamEnd)
  (st : Session) :
  read_loop (chunks1 ++ chunks2) fin st =
  read_loop chunks2 fin (snd (read_loop chunks1 EndOfStream st)).
Proof.
  revert st; induction chunks1 as [|value chunks1 IH]; intros st;
    [reflexivity|].
  cbn [app read_loop]. apply IH.
Qed.

Lemma read_loop_ends (chunks : list jsstring) (st : Session) :
  fst (read_loop chunks EndOfStream st) = None.
Proof.
  revert st; induction chunks as [|value chunks IH]; intros st;
    [reflexivity|].
  cbn [read_loop]. apply IH.
Qed.

Lemma firstn_length_app {A : Type} (a b : list A) :
  firstn (length a) (a ++ b) = a.
Proof. induction a as [|x a IH]; simpl; [reflexivity | rewrite IH; reflexivity]. Qed.

(** X4. Once a data line throws, the reply is frozen. When the lines before
    it pass through the body, the transcript the send leaves holds their
    deltas and nothing of what the stream holds behind the line that
    throws, however much that is and however the stream is cut into
    chunks. *)
Theorem reply_is_frozen_behind_a_throwing_line :
  forall prev input att isLoading (status : N)
         (chunks pre : list jsstring) (l rest : jsstring),
    refused input att isLoading = false -> ok_status status = true ->
    concat chunks = join pre ++ l ++ LF :: rest ->
    forallb single_line pre = true -> forallb is_pass pre = true ->
    single_line l = true -> is_requeue l = true ->
    handleSend prev input att isLoading
      (FetchResponse status (Some (chunks, EndOfStream))) =
    prev ++ displayMsg input att :: reply_turn (Date_now 1) (deltas_of pre).
Proof.
  intros prev input att isLoading status chunks pre l rest
         Hg Hok Hc Hsl Hp Hl Hr.
  destruct (handleSend_stream prev input att isLoading status chunks
              EndOfStream Hg Hok) as (st & Hreach & ->).
  rewrite app_nil_r. rewrite Hc in Hreach.
  destruct (reached_covers _ _ _ _ Hreach (single_lines_nolf _ Hsl)
              (forallb_Forall _ _ Hp))
    as (more & B & Ht & Hnm & Hnr & Hst & _).
  destruct more as [|m more].
  - rewrite app_nil_r in Hst.
    destruct (messages_absorbed _ _ _ _ _ Hst) as (-> & _ & _). reflexivity.
  - exfalso. rewrite join_cons, <- app_assoc in Ht. cbn [app] in Ht.
    assert (Hln : nolf l).
    { unfold single_line in Hl. destruct (indexOf l LF) eqn:Hi;
        [discriminate | apply indexOf_None; exact Hi]. }
    inversion Hnm as [|? ? Hmn _]; subst.
    inversion Hnr as [|? ? Hmr _]; subst.
    destruct (cut_unique _ _ _ _ Hln Hmn Ht) as [<- _].
    congruence.
Qed.

(** X5. The reply follows the stream. Whatever the body holds and however
    it is cut into chunks, the reply is made of the deltas of the first [n]
    full lines of the text, for some [n], each once and in the order of the
    stream; and nothing the body holds makes the send fail: an error turn
    comes only when reading the body does. *)
Theorem reply_follows_the_stream :
  forall prev input att isLoading (status : N) (chunks : list jsstring)
         (fin : StreamEnd),
    refused input att isLoading = false -> ok_status status = true ->
    exists n,
      handleSend prev input att isLoading
        (FetchResponse status (Some (chunks, fin))) =
      prev ++ displayMsg input att
        :: reply_turn (Date_now 1)
             (deltas_of (firstn n (full_lines (concat chunks))))
        ++ match fin with
           | EndOfStream => []
           | ReadError m =>
               [error_turn
                  (Date_now
                     match deltas_of (firstn n (full_lines (concat chunks)))
                     with
                     | [] => 1%nat
                     | _ :: _ => 2%nat
                     end) m]
           end.
Proof.
  intros prev input att isLoading status chunks fin Hg Hok.
  destruct (handleSend_stream prev input att isLoading status chunks
              fin Hg Hok) as (st & Hreach & ->).
  destruct Hreach as (ls & B & HP & Hnl & _ & Hst & _).
  exists (length ls).
  rewrite HP, (full_lines_join ls B Hnl), firstn_length_app.
  destruct (messages_absorbed _ _ _ _ _ Hst) as (-> & _ & ->).
  rewrite <- app_assoc. reflexivity.
Qed.

(** X6. More of the stream only adds to the reply. What the transcript
    holds after some chunks stays when more chunks follow: the same turns
    with the same ids, the text of the reply longer by what the later lines
    add. *)
Theorem more_chunks_only_add_to_the_reply :
  forall prev input att isLoading (status : N)
         (chunks1 chunks2 : list jsstring),
    refused input att isLoading = false -> ok_status status = true ->
    exists ds more,
      handleSend prev input att isLoading
        (FetchResponse status (Some (chunks1, EndOfStream))) =
      prev ++ displayMsg input att :: reply_turn (Date_now 1) ds /\
      handleSend prev input att isLoading
        (FetchResponse status (Some (chunks1 ++ chunks2, EndOfStream))) =
      prev ++ displayMsg input att :: reply_turn (Date_now 1) (ds ++ more).
Proof.
  intros prev input att isLoading status chunks1 chunks2 Hg Hok.
  unfold handleSend, try_send. rewrite Hg, Hok. cbn [negb].
  rewrite read_loop_app.
  pose proof (read_loop_ends chunks1 (session0 prev input att)) as He1.
  destruct (read_loop_absorbs chunks1 EndOfStream (session0 prev input att))
    as (ls1 & b1 & H1).
  destruct (read_loop chunks1 EndOfStream (session0 prev input att))
    as [e1 st1]. cbn [fst snd] in *. subst e1 st1.
  pose proof (read_loop_ends chunks2
                (set_textBuffer b1 (absorb ls1 (session0 prev input att))))
    as He2.
  destruct (read_loop_absorbs chunks2 EndOfStream
              (set_textBuffer b1 (absorb ls1 (session0 prev input att))))
    as (ls2 & b2 & H2).
  destruct (read_loop chunks2 EndOfStream _) as [e2 st2].
  cbn [fst snd] in *. subst e2 st2.
  exists (deltas_of ls1), (deltas_of ls2).
  rewrite absorb_set_textBuffer, set_textBuffer_twice, <- absorb_app.
  destruct (messages_absorbed prev input att ls1
              (set_textBuffer b1 (absorb ls1 (session0 prev input att)))
              eq_refl) as (-> & _ & _).
  destruct (messages_absorbed prev input att (ls1 ++ ls2)
              (set_textBuffer b2 (absorb (ls1 ++ ls2) (session0 prev input att)))
              eq_refl) as (-> & _ & _).
  rewrite deltas_of_app. auto.
Qed.

(** *** The turns a send leaves *)

Lemma handleSend_turns (prev : list Message) (input : jsstring)
  (att : option Attachment) (isLoading : bool) (net : FetchResult) :
  refused input att isLoading = false ->
  exists ds failure,
    handleSend prev input att isLoading net =
      prev ++ displayMsg input att :: reply_turn (Date_now 1) ds ++ failure /\
    (failure = [] \/ exists now message, failure = [error_turn now message]).
Proof.
  intros Hg.
  assert (Hfail : forall m,
             exists ds failure,
               messages (session0 prev input att) ++
                 [error_turn (Date_now (ticks (session0 prev input att))) m] =
               prev ++ displayMsg input att
                 :: reply_turn (Date_now 1) ds ++ failure /\
               (failure = [] \/
                exists now message, failure = [error_turn now message])).
  { intros m. exists [], [error_turn (Date_now 1) m]. split.
    - unfold session0. cbn [messages ticks reply_turn app].
      rewrite <- app_assoc. reflexivity.
    - right. eauto. }
  unfold handleSend, try_send. rewrite Hg.
  destruct net as [m|status [[chunks fin]|]]; [apply Hfail| |].
  - destruct (ok_status status) eqn:Hok; [|apply Hfail]. cbn [negb].
    destruct (read_loop_absorbs chunks fin (session0 prev input att))
      as (ls & buf & Hst).
    destruct (read_loop chunks fin (session0 prev input att)) as [e st].
    cbn [snd] in Hst.
    destruct (messages_absorbed prev input att ls st) as (-> & _ & _).
    { rewrite Hst. reflexivity. }
    exists (deltas_of ls). destruct e as [m|].
    + exists [error_turn (Date_now (ticks st)) m].
      rewrite <- app_assoc. split; [reflexivity | right; eauto].
    + exists []. rewrite app_nil_r. auto.
  - destruct (ok_status status); apply Hfail.
Qed.

(** *** The ids, again *)

Lemma decimal_fuel_grows (fuel : nat) (n : N) (acc : jsstring) :
  exists pre,
    decimal_fuel fuel n acc = pre ++ acc /\ (fuel <> O -> pre <> []).
Proof.
  revert n acc; induction fuel as [|fuel IH]; intros n acc.
  - exists []. split; [reflexivity | congruence].
  - cbn [decimal_fuel]. cbv zeta.
    destruct (n / 10 =? 0).
    + exists [48 + n mod 10]. split; [reflexivity | discriminate].
    + destruct (IH (n / 10) ((48 + n mod 10) :: acc)) as (pre & -> & _).
      exists (pre ++ [48 + n mod 10]). rewrite <- app_assoc.
      split; [reflexivity|]. intros _. destruct pre; discriminate.
Qed.

(** Only the reading 1 prints as ["1"]. *)
Lemma decimal_one (n : N) : n <> 1 -> str_eqb (decimal n) (lit "1") = false.
Proof.
  intros Hn. destruct (str_eqb (decimal n) (lit "1")) eqn:He; [|reflexivity].
  exfalso. apply str_eqb_eq in He. unfold decimal in He.
  cbn [decimal_fuel] in He. cbv zeta in He.
  destruct (N.eqb_spec (n / 10) 0) as [Hq|Hq].
  - change (lit "1") with [49] in He.
    assert (Hd : 48 + n mod 10 = 49) by congruence.
    assert (Hlt : n < 10) by (apply N.div_small_iff in Hq; lia).
    rewrite (N.mod_small n 10 Hlt) in Hd. lia.
  - assert (Hge : 10 <= n).
    { destruct (N.lt_ge_cases n 10) as [H|H]; [|exact H].
      exfalso. apply Hq. apply N.div_small. exact H. }
    assert (Hlog : N.to_nat (N.log2 n) <> O).
    { pose proof (N.log2_le_mono 10 n Hge) as Hl.
      change (N.log2 10) with 3 in Hl. lia. }
    destruct (decimal_fuel_grows (N.to_nat (N.log2 n)) (n / 10)
                [48 + n mod 10]) as (pre & Hpre & Hne).
    rewrite Hpre in He. specialize (Hne Hlog).
    destruct pre as [|x [|y pre]]; [congruence | discriminate | discriminate].
Qed.

(** *** What a request carries *)

Lemma carried_app (a b : list Message) :
  carried (a ++ b) = carried a ++ carried b.
Proof. unfold carried. rewrite filter_app, map_app. reflexivity. Qed.

Lemma carried_reply (now : N) (ds : list jsstring) :
  carried (reply_turn now ds) =
  map (fun m => (role m, content m)) (reply_turn now ds).
Proof. destruct ds; reflexivity. Qed.

Lemma allMessages_carried (prev : list Message) (input : jsstring)
  (att : option Attachment) :
  allMessages prev input att = carried prev ++ [(user, userContent input att)].
Proof. unfold allMessages, carried. rewrite map_app. reflexivity. Qed.

Lemma userContent_not_shown (input : jsstring) (f : Attachment) :
  userContent input (Some f) <> displayContent input (Some f).
Proof.
  unfold userContent, displayContent.
  destruct (str_eqb (trim input) []) eqn:Ht.
  - apply str_eqb_eq in Ht. rewrite Ht. discriminate.
  - rewrite <- app_assoc. intros H. apply app_inv_head in H.
    discriminate.
Qed.

(** What a call adds to the transcript is carried by every later request
    as it stands. *)
Lemma handleSend_adds (prev : list Message) (input : jsstring)
  (att : option Attachment) (isLoading : bool) (net : FetchResult) :
  Date_now O <> 1 ->
  exists added,
    handleSend prev input att isLoading net = prev ++ added /\
    carried added = map (fun m => (role m, content m)) added.
Proof.
  intros Hclock. destruct (refused input att isLoading) eqn:Hg.
  - exists []. unfold handleSend. rewrite Hg, app_nil_r. auto.
  - destruct (handleSend_turns prev input att isLoading net Hg)
      as (ds & failure & -> & Hfail).
    exists (displayMsg input att :: reply_turn (Date_now 1) ds ++ failure).
    split; [reflexivity|].
    change (displayMsg input att :: reply_turn (Date_now 1) ds ++ failure)
      with ([displayMsg input att] ++ reply_turn (Date_now 1) ds ++ failure).
    rewrite !carried_app, carried_reply, !map_app. f_equal.
    + unfold carried, displayMsg. cbn [filter id].
      rewrite (decimal_one _ Hclock). reflexivity.
    + f_equal. destruct Hfail as [->|(now & message & ->)]; reflexivity.
Qed.

(** X7. What the next request carries. The request of a send carries the
    turns of the transcript it found and the user's turn with the data of
    the attached file. The request of the send after it carries that turn
    as the page showed it -- the name of the file, not its data -- and
    behind it the reply and the error turn of the first send, both as turns
    of the assistant. The clock must not have read 1 at the send: the turn
    of id ['1'] is left out of every request. *)
Theorem next_request_carries_what_was_shown :
  forall prev input att isLoading net,
    refused input att isLoading = false ->
    Date_now O <> 1 ->
    exists ds failure,
      handleSend prev input att isLoading net =
        prev ++ displayMsg input att
          :: reply_turn (Date_now 1) ds ++ failure /\
      allMessages prev input att =
        carried prev ++ [(user, userContent input att)] /\
      (forall input2 att2,
          allMessages (handleSend prev input att isLoading net) input2 att2 =
          carried prev ++ (user, displayContent input att)
            :: map (fun m => (role m, content m))
                 (reply_turn (Date_now 1) ds ++ failure)
            ++ [(user, userContent input2 att2)]) /\
      (forall f, att = Some f ->
                 userContent input att <> displayContent input att).
Proof.
  intros prev input att isLoading net Hg Hclock.
  destruct (handleSend_turns prev input att isLoading net Hg)
    as (ds & failure & Hsend & Hfail).
  exists ds, failure. split; [exact Hsend|].
  split; [apply allMessages_carried|]. split.
  - intros input2 att2. rewrite allMessages_carried, Hsend.
    change (displayMsg input att :: reply_turn (Date_now 1) ds ++ failure)
      with ([displayMsg input att] ++ reply_turn (Date_now 1) ds ++ failure).
    rewrite !carried_app, carried_reply, map_app, <- !app_assoc.
    f_equal.
    assert (Hu : carried [displayMsg input att] =
                 [(user, displayContent input att)]).
    { unfold carried, displayMsg. cbn [filter id].
      rewrite (decimal_one _ Hclock). reflexivity. }
    rewrite Hu. cbn [app]. do 2 f_equal.
    destruct Hfail as [->|(now & message & ->)]; reflexivity.
  - intros f ->. apply userContent_not_shown.
Qed.

(** X8. [Thinking...] shows until the first delta. After any chunks of the
    body, the transcript is the one the send found, the user's turn and the
    turn of the deltas reconciled so far; the page, loading all the while,
    shows [Thinking...] exactly as long as there is no such delta, an empty
    one counted. *)
Theorem thinking_until_the_first_delta :
  forall prev input att (chunks : list jsstring) (fin : StreamEnd),
    exists ds,
      messages (snd (read_loop chunks fin (session0 prev input att))) =
        prev ++ displayMsg input att :: reply_turn (Date_now 1) ds /\
      thinking true
        (messages (snd (read_loop chunks fin (session0 prev input att)))) =
        match ds with [] => true | _ :: _ => false end.
Proof.
  intros prev input att chunks fin.
  destruct (read_loop_absorbs chunks fin (session0 prev input att))
    as (ls & buf & Hst).
  destruct (messages_absorbed prev input att ls
              (snd (read_loop chunks fin (session0 prev input att))))
    as (Hm & _ & _).
  { rewrite Hst. reflexivity. }
  exists (deltas_of ls). split; [exact Hm|]. rewrite Hm.
  unfold thinking. cbn [andb].
  destruct (deltas_of ls) as [|d ds].
  - cbn [reply_turn]. rewrite last_message_snoc. reflexivity.
  - cbn [reply_turn].
    change (prev ++ displayMsg input att
              :: [mkMessage (lit "ai-" ++ decimal (Date_now 1)) assistant
                    (concat (d :: ds))])
      with (prev ++ [displayMsg input att]
              ++ [mkMessage (lit "ai-" ++ decimal (Date_now 1)) assistant
                    (concat (d :: ds))]).
    rewrite app_assoc, last_message_snoc. reflexivity.
Qed.

(** X9. The send button and the guard agree. With the button disabled a
    call of [handleSend] -- the Enter key makes one -- leaves the transcript
    as it is; with the button enabled every call adds the user's turn,
    whatever the network gives, and that turn is never empty. *)
Theorem send_button_and_guard_agree :
  forall prev input att isLoading net,
    (send_disabled input att isLoading = true ->
     handleSend prev input att isLoading net = prev) /\
    (send_disabled input att isLoading = false ->
     content (displayMsg input att) <> [] /\
     exists rest,
       handleSend prev input att isLoading net =
       prev ++ displayMsg input att :: rest).
Proof.
  intros prev input att isLoading net.
  assert (Hsame : send_disabled input att isLoading =
                  refused input att isLoading).
  { unfold send_disabled, refused. apply orb_comm. }
  rewrite Hsame. split.
  - intros Hg. unfold handleSend. rewrite Hg. reflexivity.
  - intros Hg. split.
    + unfold refused in Hg. apply orb_false_iff in Hg. destruct Hg as [Hg _].
      unfold displayMsg, displayContent. cbn [content].
      destruct att as [f|].
      * intros H. apply app_eq_nil in H. destruct H as [_ H].
        apply app_eq_nil in H. destruct H as [_ H]. discriminate.
      * rewrite andb_true_r in Hg. intros H. rewrite H in Hg. discriminate.
    + destruct (handleSend_turns prev input att isLoading net Hg)
        as (ds & failure & -> & _).
      eexists. reflexivity.
Qed.

End Engine.

(** ** A conversation *)

Section Conversation.

Variable Number_toString : jsstring -> jsstring.
Variable null_read_message : jsstring.
Variable not_primitive_message : jsstring.

(** The transcript after some sends is the fold of [handleSend] over them,
    each made when the one before it is over, [isLoading] false again
    (line 179). *)
Lemma conversation_carried (sends : list Send) (rest : list Message) :
  Forall (fun s => clock s O <> 1) sends ->
  carried rest = map (fun m => (role m, content m)) rest ->
  exists rest',
    fold_left
      (fun shown s =>
         handleSend Number_toString null_read_message not_primitive_message
           (clock s) shown (typed s) (attached s) false (network s))
      sends (greeting :: rest) = greeting :: rest' /\
    carried rest' = map (fun m => (role m, content m)) rest'.
Proof.
  intros Hs. revert rest. induction Hs as [|s sends Hclock _ IH];
    intros rest Hrest.
  - exists rest. auto.
  - cbn [fold_left].
    destruct (handleSend_adds Number_toString null_read_message
                not_primitive_message (clock s) (greeting :: rest)
                (typed s) (attached s) false (network s) Hclock)
      as (added & -> & Hadded).
    cbn [app]. apply IH. rewrite carried_app, map_app, Hrest, Hadded.
    reflexivity.
Qed.

(** X15. A request never carries the greeting and always carries all the
    rest. Through any conversation -- sends of whatever input, attachment
    and outcome, each made when the one before it is over, none when the
    clock reads 1 -- the greeting stays the first turn of the transcript,
    and the request of the next send carries every turn after it, in order,
    as the page shows it, and then the user's new turn. *)
Theorem requests_carry_all_but_the_greeting :
  forall sends : list Send,
    Forall (fun s => clock s O <> 1) sends ->
    exists rest,
      fold_left
        (fun shown s =>
           handleSend Number_toString null_read_message not_primitive_message
             (clock s) shown (typed s) (attached s) false (network s))
        sends [greeting] = greeting :: rest /\
      forall (Date_now : nat -> N) input att,
        allMessages Date_now
          (fold_left
             (fun shown s =>
                handleSend Number_toString null_read_message
                  not_primitive_message
                  (clock s) shown (typed s) (attached s) false (network s))
             sends [greeting]) input att =
        map (fun m => (role m, content m)) rest
          ++ [(user, userContent input att)].
Proof.
  intros sends Hs.
  destruct (conversation_carried sends [] Hs eq_refl) as (rest & Hc & Hr).
  exists rest. split; [exact Hc|].
  intros Date_now input att. rewrite allMessages_carried, Hc.
  change (greeting :: rest) with ([greeting] ++ rest).
  rewrite carried_app, Hr. reflexivity.
Qed.

End Conversation.

(** ** The portfolio file, row by row *)

Lemma split_from_app (sep : N) (cur a b : jsstring) :
  split_from sep cur (a ++ sep :: b) =
  split_from sep cur a ++ split_from sep [] b.
Proof.
  revert cur; induction a as [|c a IH]; intros cur.
  - cbn [app split_from]. rewrite N.eqb_refl. reflexivity.
  - cbn [app split_from]. destruct (c =? sep).
    + rewrite IH. reflexivity.
    + apply IH.
Qed.

Lemma csv_rows_app (a b : jsstring) :
  csv_rows (a ++ LF :: b) = csv_rows a ++ csv_rows b.
Proof.
  unfold csv_rows, split. rewrite split_from_app, map_app. reflexivity.
Qed.

(** The pieces of a split hold the code units of the text, the separator
    apart. *)
Lemma split_from_Forall (R : N -> Prop) (sep : N) (cur s : jsstring) :
  Forall R cur -> Forall (fun c => c <> sep -> R c) s ->
  Forall (Forall R) (split_from sep cur s).
Proof.
  revert cur; induction s as [|c s IH]; intros cur Hcur Hs.
  - constructor; [|constructor]. apply Forall_rev. exact Hcur.
  - inversion Hs as [|? ? Hc Hs']; subst. cbn [split_from].
    destruct (N.eqb_spec c sep) as [->|Hne].
    + constructor; [apply Forall_rev; exact Hcur|].
      apply IH; [constructor | exact Hs'].
    + apply IH; [constructor; auto | exact Hs'].
Qed.

Lemma In_trim_start (s : jsstring) (c : N) : In c (trim_start s) -> In c s.
Proof.
  induction s as [|x s IH]; [auto|]. cbn [trim_start].
  destruct (is_js_space x); [intros H; right; auto | auto].
Qed.

Lemma In_trim (s : jsstring) (c : N) : In c (trim s) -> In c s.
Proof.
  unfold trim. intros H. apply In_rev in H. apply In_trim_start in H.
  apply In_rev in H. apply In_trim_start in H. exact H.
Qed.

(** A cell cut from white space and quotes is not filled. *)
Lemma blank_cell_not_filled (p : jsstring) :
  Forall (fun c => blank_unit c = true /\ c <> COMMA) p ->
  cell_filled (strip_quotes (trim p)) = false.
Proof.
  intros Hp.
  assert (Hall : forallb is_js_space (strip_quotes (trim p)) = true).
  { apply forallb_forall. intros c Hin. unfold strip_quotes in Hin.
    apply filter_In in Hin. destruct Hin as [Hin Hq].
    apply In_trim in Hin. rewrite Forall_forall in Hp.
    destruct (Hp c Hin) as [Hb Hc]. unfold blank_unit in Hb.
    destruct (is_js_space c); [reflexivity|]. exfalso.
    destruct (N.eqb_spec c COMMA) as [->|_]; [apply Hc; reflexivity|].
    destruct (c =? QUOTE); discriminate. }
  apply trim_nil_iff in Hall. unfold cell_filled. rewrite Hall.
  apply andb_false_r.
Qed.

Lemma blank_rows_dropped (blank : jsstring) :
  forallb blank_unit blank = true ->
  filter (existsb cell_filled) (csv_rows blank) = [].
Proof.
  intros Hb.
  assert (Hrows : Forall (Forall (fun c => blank_unit c = true))
                    (split blank LF)).
  { apply split_from_Forall; [constructor|].
    rewrite forallb_forall in Hb. apply Forall_forall. auto. }
  unfold csv_rows. induction Hrows as [|row rows Hrow _ IH]; [reflexivity|].
  cbn [map filter]. rewrite IH.
  assert (Hno : existsb cell_filled (csv_cells row) = false).
  { assert (Hcells : Forall (Forall (fun c => blank_unit c = true
                                              /\ c <> COMMA))
                       (split row COMMA)).
    { apply split_from_Forall; [constructor|].
      rewrite Forall_forall in Hrow |- *. auto. }
    unfold csv_cells.
    induction Hcells as [|p ps Hp _ IHp]; [reflexivity|].
    cbn [map existsb]. rewrite (blank_cell_not_filled p Hp). exact IHp. }
  rewrite Hno. reflexivity.
Qed.

Lemma formatted_app_blank (a b : list (list jsstring)) (blank : jsstring) :
  forallb blank_unit blank = true ->
  formatted (a ++ csv_rows blank ++ b) = formatted (a ++ b).
Proof.
  intros Hb. unfold formatted.
  rewrite !filter_app, (blank_rows_dropped blank Hb). reflexivity.
Qed.

(** X10. Rows with nothing in them add nothing. Lines made of white space,
    commas and double quotes only -- blank lines, the empty line behind a
    last newline, rows of empty cells -- leave what the file resolves to as
    it is without them, wherever they stand: between two rows, behind the
    last or before the first. *)
Theorem blank_rows_add_nothing :
  forall (name a blank b : jsstring),
    forallb blank_unit blank = true ->
    parsePortfolioFile_csv name (a ++ LF :: blank ++ LF :: b) =
      parsePortfolioFile_csv name (a ++ LF :: b) /\
    parsePortfolioFile_csv name (a ++ LF :: blank) =
      parsePortfolioFile_csv name a /\
    parsePortfolioFile_csv name (blank ++ LF :: b) =
      parsePortfolioFile_csv name b.
Proof.
  intros name a blank b Hb. unfold parsePortfolioFile_csv.
  repeat split; do 6 f_equal.
  - change (a ++ LF :: blank ++ LF :: b)
      with (a ++ LF :: (blank ++ LF :: b)).
    rewrite !csv_rows_app. apply formatted_app_blank. exact Hb.
  - rewrite csv_rows_app.
    pose proof (formatted_app_blank (csv_rows a) [] blank Hb) as H.
    rewrite !app_nil_r in H. exact H.
  - rewrite csv_rows_app.
    apply (formatted_app_blank [] (csv_rows b) blank Hb).
Qed.

Lemma csv_cells_snoc_space (cur row : jsstring) (c : N) :
  is_js_space c = true -> c <> COMMA ->
  map (fun p => strip_quotes (trim p)) (split_from COMMA cur (row ++ [c])) =
  map (fun p => strip_quotes (trim p)) (split_from COMMA cur row).
Proof.
  intros Hc Hne. revert cur; induction row as [|x row IH]; intros cur.
  - cbn [app split_from]. destruct (N.eqb_spec c COMMA) as [->|_];
      [congruence|].
    cbn [split_from map rev]. rewrite (trim_snoc_space _ _ Hc). reflexivity.
  - cbn [app split_from]. destruct (x =? COMMA).
    + cbn [map]. rewrite IH. reflexivity.
    + apply IH.
Qed.

Lemma csv_rows_crlf (cur text : jsstring) :
  map csv_cells (split_from LF cur (crlf text)) =
  map csv_cells (split_from LF cur text).
Proof.
  revert cur; induction text as [|c text IH]; intros cur; [reflexivity|].
  unfold crlf. cbn [flat_map]. fold (crlf text).
  destruct (N.eqb_spec c LF) as [->|Hne].
  - cbn [app split_from]. change (CR =? LF) with false.
    change (LF =? LF) with true. cbv iota. cbn [map rev].
    rewrite IH. f_equal. unfold csv_cells, split.
    apply csv_cells_snoc_space; [reflexivity | discriminate].
  - cbn [app split_from]. destruct (N.eqb_spec c LF) as [?|_]; [congruence|].
    apply IH.
Qed.

(** X11. A file with Windows line ends resolves to what the same file with
    plain newlines resolves to: the carriage return before a newline ends
    the last cell of its row and is trimmed away with it. *)
Theorem crlf_file_resolves_alike :
  forall name text : jsstring,
    parsePortfolioFile_csv name (crlf text) =
    parsePortfolioFile_csv name text.
Proof.
  intros name text. unfold parsePortfolioFile_csv, csv_rows, split.
  rewrite csv_rows_crlf. reflexivity.
Qed.

Lemma split_from_length (sep : N) (cur s : jsstring) :
  length (split_from sep cur s) = S (count_occ N.eq_dec s sep).
Proof.
  revert cur; induction s as [|c s IH]; intros cur; [reflexivity|].
  cbn [split_from count_occ].
  destruct (N.eqb_spec c sep) as [->|Hne].
  - destruct (N.eq_dec sep sep) as [_|H]; [|congruence].
    cbn [length]. rewrite IH. reflexivity.
  - destruct (N.eq_dec c sep) as [H|_]; [congruence|]. apply IH.
Qed.

Lemma In_join_with (sep : jsstring) (l : list jsstring) (c : N) :
  In c (join_with sep l) -> In c sep \/ exists x, In x l /\ In c x.
Proof.
  induction l as [|x l IH]; [intros []|].
  cbn [join_with]. destruct l as [|y l].
  - intros H. right. exists x. split; [left; reflexivity | exact H].
  - intros H. apply in_app_or in H. destruct H as [H|H].
    + right. exists x. split; [left; reflexivity | exact H].
    + apply in_app_or in H. destruct H as [H|H]; [left; exact H|].
      destruct (IH H) as [Hs|(z & Hz & Hc)]; [left; exact Hs|].
      right. exists z. split; [right; exact Hz | exact Hc].
Qed.

(** X12. The quotes of a CSV file do not quote. Every comma of a row ends
    a cell, also one between double quotes, so a row has one cell more than
    it has commas; and no double quote is left in the rows the file
    resolves to. *)
Theorem quotes_do_not_quote :
  (forall row : jsstring,
      length (csv_cells row) = S (count_occ N.eq_dec row COMMA)) /\
  (forall text : jsstring, ~ In QUOTE (formatted (csv_rows text))).
Proof.
  split.
  - intros row. unfold csv_cells, split.
    rewrite length_map. apply split_from_length.
  - intros text Hin. unfold formatted in Hin.
    apply In_join_with in Hin. destruct Hin as [Hin|(line & Hline & Hin)].
    { destruct Hin as [H|[]]. discriminate. }
    apply in_map_iff in Hline. destruct Hline as (row & <- & Hrow).
    apply filter_In in Hrow. destruct Hrow as [Hrow _].
    apply In_join_with in Hin. destruct Hin as [Hin|(cell & Hcell & Hin)].
    { vm_compute in Hin. intuition discriminate. }
    unfold csv_rows in Hrow. apply in_map_iff in Hrow.
    destruct Hrow as (r & <- & _).
    unfold csv_cells in Hcell. apply in_map_iff in Hcell.
    destruct Hcell as (p & <- & _).
    unfold strip_quotes in Hin. apply filter_In in Hin.
    destruct Hin as [_ Hq]. rewrite N.eqb_refl in Hq. discriminate.
Qed.

(** ** The belief graph: places and colours *)

Lemma ring_places_length (radius n : N) (stag : bool) :
  length (ring_places radius n stag) = N.to_nat n.
Proof. unfold ring_places. rewrite length_map, length_seq. reflexivity. Qed.

Lemma layoutNodes_length (count : N) :
  length (layoutNodes count) = N.to_nat count.
Proof.
  unfold layoutNodes.
  destruct (N.leb_spec count 0) as [H0|H0].
  { assert (count = 0) by lia. subst. reflexivity. }
  destruct (N.leb_spec count 6) as [H6|H6].
  { apply ring_places_length. }
  cbv zeta. rewrite length_app, !ring_places_length.
  assert (Hin : N.min 6 (count / 2) <= count).
  { pose proof (N.le_min_r 6 (count / 2)) as Hm.
    pose proof (N.Div0.div_le_upper_bound count 2 count) as Hd.
    assert (count / 2 <= count) by (apply Hd; lia). lia. }
  lia.
Qed.

Lemma ring_places_slots (radius n : N) (stag : bool) :
  Forall (fun p => slot p < ring_size p) (ring_places radius n stag).
Proof.
  unfold ring_places. apply Forall_forall. intros p Hin.
  apply in_map_iff in Hin. destruct Hin as (i & <- & Hi).
  apply in_seq in Hi. cbn [slot ring_size]. lia.
Qed.

Lemma ring_places_NoDup (radius n : N) (stag : bool) :
  NoDup (ring_places radius n stag).
Proof.
  unfold ring_places. generalize (seq_NoDup (N.to_nat n) 0).
  generalize (seq 0 (N.to_nat n)). intros l Hl.
  induction Hl as [|i l Hi _ IH]; [constructor|].
  cbn [map]. constructor; [|exact IH].
  intros Hin. apply in_map_iff in Hin. destruct Hin as (j & Hj & Hin).
  apply Hi. inversion Hj as [Hij]. apply Nat2N.inj in Hij. subst j.
  exact Hin.
Qed.

Lemma map_indexed_places {A : Type} (l : list A) (pre ps : list Place) :
  length l = length ps ->
  map_indexed (fun _ i => node_position (pre ++ ps) i) (length pre) l =
  map OnRing ps.
Proof.
  revert pre ps; induction l as [|a l IH]; intros pre [|p ps] Hlen;
    try discriminate; [reflexivity|].
  cbn [map_indexed map]. f_equal.
  - unfold node_position. rewrite nth_error_app2 by apply le_n.
    rewrite Nat.sub_diag. reflexivity.
  - specialize (IH (pre ++ [p]) ps). rewrite <- app_assoc in IH.
    rewrite length_app in IH. cbn [length app] in IH.
    rewrite Nat.add_1_r in IH. apply IH. simpl in Hlen. lia.
Qed.

(** X13. Every narrative gets a place of its own. [layoutNodes] gives as
    many places as it is asked for, so each node of [initialNodes] stands
    on its place and none falls back to the origin; no two places are the
    same slot of the same ring; every slot is below the size of its ring,
    so no angle divides by zero; and above six nodes the inner ring holds
    three to six of them and the outer ring the others, at least as
    many. *)
Theorem every_narrative_gets_a_place :
  (forall (A : Type) (narratives : list A),
      initialNodes_positions narratives =
      map OnRing (layoutNodes (N.of_nat (length narratives)))) /\
  (forall count : N,
      NoDup (layoutNodes count) /\
      Forall (fun p => slot p < ring_size p) (layoutNodes count)) /\
  (forall count : N,
      6 < count ->
      exists inner outer,
        layoutNodes count =
          ring_places 220 inner false ++ ring_places 450 outer true /\
        3 <= inner <= 6 /\ inner <= outer /\ inner + outer = count).
Proof.
  split; [|split].
  - intros A narratives. unfold initialNodes_positions.
    apply (map_indexed_places narratives []).
    rewrite layoutNodes_length, Nat2N.id. reflexivity.
  - intros count. unfold layoutNodes.
    destruct (count <=? 0); [split; constructor|].
    destruct (count <=? 6);
      [split; [apply ring_places_NoDup | apply ring_places_slots]|].
    cbv zeta. split.
    + apply NoDup_app; [apply ring_places_NoDup | apply ring_places_NoDup|].
      intros p H1 H2. unfold ring_places in H1, H2.
      apply in_map_iff in H1, H2.
      destruct H1 as (i & <- & _), H2 as (j & H & _). discriminate.
    + apply Forall_app; split; apply ring_places_slots.
  - intros count H6. unfold layoutNodes.
    destruct (N.leb_spec count 0) as [H0|_]; [lia|].
    destruct (N.leb_spec count 6) as [H|_]; [lia|].
    cbv zeta. exists (N.min 6 (count / 2)), (count - N.min 6 (count / 2)).
    split; [reflexivity|].
    assert (Hlo : 3 <= count / 2).
    { apply N.div_le_lower_bound; lia. }
    assert (Hhi : 2 * (count / 2) <= count).
    { apply N.Div0.mul_div_le. }
    lia.
Qed.

Lemma at_least_zero (q : Q) (k : Z) :
  Qeq_bool q (inject_Z 0) = true -> (0 < k)%Z ->
  at_least (Finite q) k = false.
Proof.
  intros Hq Hk. cbn [at_least]. apply Qeq_bool_iff in Hq.
  destruct (Qle_bool (inject_Z k) q) eqn:Hle; [|reflexivity].
  exfalso. apply Qle_bool_iff in Hle. rewrite Hq in Hle.
  unfold Qle, inject_Z in Hle. cbn in Hle. lia.
Qed.

(** X14. The minimap and the card paint a node by the same thresholds, 70
    and 40, and so in the same one of three colours -- unless the confidence
    is zero or not a number: the minimap reads it as 50 and paints amber a
    node whose card is red. *)
Theorem minimap_colour_and_card_colour :
  forall confidence : jsnumber,
    (number_truthy confidence = true ->
     (nodeColor confidence = lit "#22c55e" /\
      bgGradient confidence = lit "from-emerald-500/20 to-emerald-500/5" /\
      borderColor confidence = lit "border-emerald-500/40" /\
      confTextColor confidence = lit "text-emerald-400") \/
     (nodeColor confidence = lit "#f59e0b" /\
      bgGradient confidence = lit "from-amber-500/20 to-amber-500/5" /\
      borderColor confidence = lit "border-amber-500/40" /\
      confTextColor confidence = lit "text-amber-400") \/
     (nodeColor confidence = lit "#ef4444" /\
      bgGradient confidence = lit "from-red-500/20 to-red-500/5" /\
      borderColor confidence = lit "border-red-500/40" /\
      confTextColor confidence = lit "text-red-400")) /\
    (number_truthy confidence = false ->
     nodeColor confidence = lit "#f59e0b" /\
     bgGradient confidence = lit "from-red-500/20 to-red-500/5" /\
     borderColor confidence = lit "border-red-500/40" /\
     confTextColor confidence = lit "text-red-400").
Proof.
  intros confidence. split; intros Ht.
  - unfold nodeColor, bgGradient, borderColor, confTextColor.
    rewrite Ht. cbv zeta.
    destruct (at_least confidence 70); [left; auto|].
    destruct (at_least confidence 40); [right; left; auto|].
    right; right; auto.
  - assert (H70 : at_least confidence 70 = false).
    { destruct confidence as [|neg|q]; [reflexivity | discriminate|].
      apply at_least_zero; [|lia]. cbn [number_truthy] in Ht.
      destruct (Qeq_bool q (inject_Z 0)); [reflexivity | discriminate]. }
    assert (H40 : at_least confidence 40 = false).
    { destruct confidence as [|neg|q]; [reflexivity | discriminate|].
      apply at_least_zero; [|lia]. cbn [number_truthy] in Ht.
      destruct (Qeq_bool q (inject_Z 0)); [reflexivity | discriminate]. }
    unfold nodeColor, bgGradient, borderColor, confTextColor.
    rewrite Ht, H70, H40. cbv zeta. auto.
Qed.

(** ** The claims at concrete inputs *)

Section Samples.

Local Abbreviation send :=
  (handleSend sample_Number_toString sample_null_read_message
     sample_not_primitive_message sample_Date_now).
Local Abbreviation body := (loop_body sample_Number_toString sample_Date_now).
Local Abbreviation user_says := (displayMsg sample_Date_now).

(** The deltas [Hel] and [lo] and the sentinel, in two chunks that cut the
    second line in two. *)
Lemma deltas_fill_one_turn_witness :
  send [] (lit "hi") None false
    (FetchResponse 200
       (Some ([qlit "data: {'choices':[{'delta':{'content':'Hel'}}]}"
                 ++ [LF] ++ qlit "data: {'choices':[{'del";
               qlit "ta':{'content':'lo'}}]}" ++ [LF]
                 ++ lit "data: [DONE]" ++ [LF]],
              EndOfStream))) =
  [] ++ user_says (lit "hi") None
    :: reply_turn (sample_Date_now 1) [lit "Hel"; lit "lo"].
Proof.
  apply (proj1 (proj2 (deltas_fill_one_turn sample_Number_toString
                         sample_null_read_message
                         sample_not_primitive_message sample_Date_now))
           [] (lit "hi") None false 200 _ [lit "Hel"; lit "lo"]
           [lit "data: [DONE]"]);
    vm_compute; reflexivity.
Defined.



Lemma comment_and_blank_lines_change_nothing_witness :
  body (lit ":keep-alive") (mkSession (lit "rest") (lit "so far") [] 1) =
    (Continue, mkSession (lit "rest") (lit "so far") [] 1) /\
  body [32; CR] (mkSession (lit "rest") (lit "so far") [] 1) =
    (Continue, mkSession (lit "rest") (lit "so far") [] 1).
Proof.
  split;
    apply (comment_and_blank_lines_change_nothing sample_Number_toString
             sample_Date_now).
  - left. reflexivity.
  - right. reflexivity.
Defined.



Lemma no_content_changes_nothing_witness :
  messages
    (snd (body (qlit "data: {'choices':[{'delta':{'content':''}}]}")
            (mkSession [] [] [] 1))) = [].
Proof.
  apply (no_content_changes_nothing sample_Number_toString sample_Date_now
           (qlit "data: {'choices':[{'delta':{'content':''}}]}")
           (mkSession [] [] [] 1)
           (JObject
              [(lit "choices",
                JArray
                  [JObject
                     [(lit "delta",
                       JObject [(lit "content", JString [])])]])])).
  - vm_compute. reflexivity.
  - right. right. right. reflexivity.
Defined.

(** A line [data:<payload>] with no space is skipped, not read as a data
    line. *)
Lemma data_without_space_is_skipped :
  body (qlit "data:{'choices':[{'delta':{'content':'X'}}]}")
    (mkSession [] [] [] 1) = (Continue, mkSession [] [] [] 1) /\
  send [] (lit "hi") None false
    (FetchResponse 200
       (Some ([qlit "data:{'choices':[{'delta':{'content':'X'}}]}" ++ [LF]],
              EndOfStream))) =
  [user_says (lit "hi") None] /\
  send [] (lit "hi") None false
    (FetchResponse 200
       (Some ([qlit "data: {'choices':[{'delta':{'content':'X'}}]}" ++ [LF]],
              EndOfStream))) =
  [user_says (lit "hi") None;
   mkMessage (lit "ai-" ++ decimal (sample_Date_now 1)) assistant (lit "X")].
Proof.
  exact (send_data_without_space sample_Number_toString
           sample_null_read_message sample_not_primitive_message
           sample_Date_now).
Qed.

Lemma data_prefix_needs_its_space_witness :
  body (qlit "data:{'choices':[{'delta':{'content':'X'}}]}")
    (mkSession [] [] [] 1) = (Continue, mkSession [] [] [] 1) /\
  body (lit "data:  [DONE] ") (mkSession [] [] [] 1) =
    (Break, mkSession [] [] [] 1).
Proof.
  split.
  - apply (proj1 (data_prefix_needs_its_space sample_Number_toString
                    sample_Date_now _ _)).
    reflexivity.
  - rewrite (proj2 (data_prefix_needs_its_space sample_Number_toString
                      sample_Date_now _ _));
      reflexivity.
Defined.

(** A failed status does append a turn of the assistant, the error turn;
    and an [error] member that is the empty string is not the message. *)
Lemma failed_status_appends_an_assistant_turn :
  send [] (lit "hi") None false
    (FetchResponse 500
       (Some ([qlit "{'error':'rate limited'}"], EndOfStream))) =
  [user_says (lit "hi") None;
   mkMessage (lit "err-" ++ decimal (sample_Date_now 1)) assistant
     (lit "Sorry, I encountered an error: rate limited. Please try again.")] /\
  send [] (lit "hi") None false
    (FetchResponse 500 (Some ([qlit "{'error':''}"], EndOfStream))) =
  [user_says (lit "hi") None;
   mkMessage (lit "err-" ++ decimal (sample_Date_now 1)) assistant
     (lit "Sorry, I encountered an error: Error 500. Please try again.")].
Proof.
  exact (send_failed_status sample_Number_toString
           sample_null_read_message sample_not_primitive_message
           sample_Date_now).
Qed.

Lemma failed_status_appends_error_turn_witness :
  send [] (lit "hi") None false
    (FetchResponse 500
       (Some ([qlit "{'error':'rate limited'}"], EndOfStream))) =
  [] ++ [user_says (lit "hi") None;
         error_turn (sample_Date_now 1)
           (status_error_message sample_Number_toString
              sample_null_read_message sample_not_primitive_message 500
              (Some ([qlit "{'error':'rate limited'}"], EndOfStream)))].
Proof.
  apply (failed_status_appends_error_turn sample_Number_toString
           sample_null_read_message sample_not_primitive_message
           sample_Date_now);
    reflexivity.
Defined.

(** One text with a line that throws in it and no sentinel, in one chunk
    and in three. *)
Lemma chunking_invariance_without_sentinel_witness :
  send [] (lit "hi") None false
    (FetchResponse 200
       (Some ([qlit "data: {'choices':[{'delta':{'content':'Hel'}}]}"
                 ++ [CR; LF] ++ [LF]
                 ++ qlit "data: {'choices':[{'delta':{'content':'lo'}}]}"
                 ++ [LF] ++ lit "data: {bad" ++ [LF]
                 ++ qlit "data: {'choices':[{'delta':{'content':'X'}}]}"
                 ++ [LF]],
              EndOfStream))) =
  send [] (lit "hi") None false
    (FetchResponse 200
       (Some ([qlit "data: {'choices':[{'delta':{'content':'Hel'}}]}"
                 ++ [CR];
               [LF] ++ [LF]
                 ++ qlit "data: {'choices':[{'delta':{'content':'lo'}}]}"
                 ++ [LF] ++ lit "data: {b";
               lit "ad" ++ [LF]
                 ++ qlit "data: {'choices':[{'delta':{'content':'X'}}]}"
                 ++ [LF]],
              EndOfStream))).
Proof.
  apply (chunking_invariance_without_sentinel sample_Number_toString
           sample_null_read_message sample_not_primitive_message
           sample_Date_now);
    vm_compute; reflexivity.
Defined.

(** A comment line, a delta, the sentinel and an unterminated rest: the
    loop is left at the sentinel, in its third iteration. *)
Lemma line_loop_terminates_witness :
  line_loop_run sample_Number_toString sample_Date_now 100
    (mkSession
       (lit ": ping" ++ [LF]
          ++ qlit "data: {'choices':[{'delta':{'content':'X'}}]}" ++ [LF]
          ++ lit "data: [DONE]" ++ [LF] ++ lit "data: left")
       [] [] 1) =
  Some
    (line_loop sample_Number_toString sample_Date_now
       (mkSession
          (lit ": ping" ++ [LF]
             ++ qlit "data: {'choices':[{'delta':{'content':'X'}}]}" ++ [LF]
             ++ lit "data: [DONE]" ++ [LF] ++ lit "data: left")
          [] [] 1)).
Proof.
  apply (line_loop_terminates sample_Number_toString sample_Date_now).
  vm_compute. repeat constructor.
Defined.

Lemma read_error_keeps_the_reply_witness :
  exists now,
    send [] (lit "hi") None false
      (FetchResponse 200
         (Some ([qlit "data: {'choices':[{'delta':{'content':'Hel'}}]}"
                   ++ [LF]],
                ReadError (lit "network error")))) =
    send [] (lit "hi") None false
      (FetchResponse 200
         (Some ([qlit "data: {'choices':[{'delta':{'content':'Hel'}}]}"
                   ++ [LF]],
                EndOfStream)))
      ++ [error_turn now (lit "network error")].
Proof.
  apply (read_error_keeps_the_reply sample_Number_toString
           sample_null_read_message sample_not_primitive_message
           sample_Date_now);
    reflexivity.
Defined.

(** A line that throws behind one delta: the delta behind it and the
    sentinel never reach the reply. *)
Lemma reply_is_frozen_behind_a_throwing_line_witness :
  send [] (lit "hi") None false
    (FetchResponse 200
       (Some ([qlit "data: {'choices':[{'delta':{'content':'Hel'}}]}"
                 ++ [LF] ++ lit "data: {b";
               lit "ad" ++ [LF]
                 ++ qlit "data: {'choices':[{'delta':{'content':'lo'}}]}"
                 ++ [LF];
               lit "data: [DONE]" ++ [LF]],
              EndOfStream))) =
  [] ++ user_says (lit "hi") None
    :: reply_turn (sample_Date_now 1)
         (deltas_of sample_Number_toString
            [qlit "data: {'choices':[{'delta':{'content':'Hel'}}]}"]).
Proof.
  apply (reply_is_frozen_behind_a_throwing_line sample_Number_toString
           sample_null_read_message sample_not_primitive_message
           sample_Date_now [] (lit "hi") None false 200 _
           [qlit "data: {'choices':[{'delta':{'content':'Hel'}}]}"]
           (lit "data: {bad")
           (qlit "data: {'choices':[{'delta':{'content':'lo'}}]}"
              ++ [LF] ++ lit "data: [DONE]" ++ [LF]));
    vm_compute; reflexivity.
Defined.

Lemma reply_follows_the_stream_witness :
  exists n,
    send [] (lit "hi") None false
      (FetchResponse 200
         (Some ([qlit "data: {'choices':[{'delta':{'content':'Hel'}}]}"
                   ++ [LF] ++ lit "data: {bad" ++ [LF]],
                ReadError (lit "network error")))) =
    [] ++ user_says (lit "hi") None
      :: reply_turn (sample_Date_now 1)
           (deltas_of sample_Number_toString
              (firstn n
                 (full_lines
                    (concat
                       [qlit "data: {'choices':[{'delta':{'content':'Hel'}}]}"
                          ++ [LF] ++ lit "data: {bad" ++ [LF]]))))
      ++ [error_turn
            (sample_Date_now
               match
                 deltas_of sample_Number_toString
                   (firstn n
                      (full_lines
                         (concat
                            [qlit "data: {'choices':[{'delta':{'content':'Hel'}}]}"
                               ++ [LF] ++ lit "data: {bad" ++ [LF]])))
               with
               | [] => 1%nat
               | _ :: _ => 2%nat
               end) (lit "network error")].
Proof.
  apply (reply_follows_the_stream sample_Number_toString
           sample_null_read_message sample_not_primitive_message
           sample_Date_now [] (lit "hi") None false 200
           [qlit "data: {'choices':[{'delta':{'content':'Hel'}}]}"
              ++ [LF] ++ lit "data: {bad" ++ [LF]]
           (ReadError (lit "network error")));
    reflexivity.
Defined.

Lemma more_chunks_only_add_to_the_reply_witness :
  exists ds more,
    send [] (lit "hi") None false
      (FetchResponse 200
         (Some ([qlit "data: {'choices':[{'delta':{'content':'Hel'}}]}"
                   ++ [LF] ++ qlit "data: {'cho"],
                EndOfStream))) =
    [] ++ user_says (lit "hi") None :: reply_turn (sample_Date_now 1) ds /\
    send [] (lit "hi") None false
      (FetchResponse 200
         (Some ([qlit "data: {'choices':[{'delta':{'content':'Hel'}}]}"
                   ++ [LF] ++ qlit "data: {'cho"]
                  ++ [qlit "ices':[{'delta':{'content':'lo'}}]}" ++ [LF]],
                EndOfStream))) =
    [] ++ user_says (lit "hi") None
      :: reply_turn (sample_Date_now 1) (ds ++ more).
Proof.
  apply (more_chunks_only_add_to_the_reply sample_Number_toString
           sample_null_read_message sample_not_primitive_message
           sample_Date_now);
    reflexivity.
Defined.

(** A send with a file attached and a failed status, and the request of
    the send after it. *)
Lemma next_request_carries_what_was_shown_witness :
  exists ds failure,
    send [] (lit "my holdings")
      (Some (mkAttachment (lit "p.csv") (lit "AAPL | 10"))) false
      (FetchResponse 500 None) =
      [] ++ user_says (lit "my holdings")
              (Some (mkAttachment (lit "p.csv") (lit "AAPL | 10")))
        :: reply_turn (sample_Date_now 1) ds ++ failure /\
    allMessages sample_Date_now [] (lit "my holdings")
      (Some (mkAttachment (lit "p.csv") (lit "AAPL | 10"))) =
      carried []
        ++ [(user,
             userContent (lit "my holdings")
               (Some (mkAttachment (lit "p.csv") (lit "AAPL | 10"))))] /\
    (forall input2 att2,
        allMessages sample_Date_now
          (send [] (lit "my holdings")
             (Some (mkAttachment (lit "p.csv") (lit "AAPL | 10"))) false
             (FetchResponse 500 None)) input2 att2 =
        carried []
          ++ (user,
              displayContent (lit "my holdings")
                (Some (mkAttachment (lit "p.csv") (lit "AAPL | 10"))))
          :: map (fun m => (role m, content m))
               (reply_turn (sample_Date_now 1) ds ++ failure)
          ++ [(user, userContent input2 att2)]) /\
    (forall f,
        Some (mkAttachment (lit "p.csv") (lit "AAPL | 10")) = Some f ->
        userContent (lit "my holdings")
          (Some (mkAttachment (lit "p.csv") (lit "AAPL | 10"))) <>
        displayContent (lit "my holdings")
          (Some (mkAttachment (lit "p.csv") (lit "AAPL | 10")))).
Proof.
  apply (next_request_carries_what_was_shown sample_Number_toString
           sample_null_read_message sample_not_primitive_message
           sample_Date_now [] (lit "my holdings")
           (Some (mkAttachment (lit "p.csv") (lit "AAPL | 10"))) false
           (FetchResponse 500 None));
    [reflexivity | vm_compute; discriminate].
Defined.

(** Blank input and no file: the button is disabled and a call changes
    nothing. Blank input and a file: the button is enabled and the call
    adds the user's turn. *)
Lemma send_button_and_guard_agree_witness :
  send [] (lit "  ") None false (FetchRejected (lit "Failed to fetch")) = [] /\
  content
    (user_says (lit "  ")
       (Some (mkAttachment (lit "p.csv") (lit "AAPL | 10")))) <> [] /\
  exists rest,
    send [] (lit "  ")
      (Some (mkAttachment (lit "p.csv") (lit "AAPL | 10"))) false
      (FetchRejected (lit "Failed to fetch")) =
    [] ++ user_says (lit "  ")
            (Some (mkAttachment (lit "p.csv") (lit "AAPL | 10"))) :: rest.
Proof.
  split.
  - apply (proj1 (send_button_and_guard_agree sample_Number_toString
                    sample_null_read_message sample_not_primitive_message
                    sample_Date_now [] (lit "  ") None false
                    (FetchRejected (lit "Failed to fetch")))).
    reflexivity.
  - apply (proj2 (send_button_and_guard_agree sample_Number_toString
                    sample_null_read_message sample_not_primitive_message
                    sample_Date_now [] (lit "  ")
                    (Some (mkAttachment (lit "p.csv") (lit "AAPL | 10")))
                    false (FetchRejected (lit "Failed to fetch")))).
    reflexivity.
Defined.

(** A row of empty cells with a carriage return, and the empty line behind
    the last newline. *)
Lemma blank_rows_add_nothing_witness :
  parsePortfolioFile_csv (lit "p.csv")
    (lit "Ticker,Shares" ++ LF :: (lit " , " ++ [CR]) ++ LF :: lit "AAPL,10") =
    parsePortfolioFile_csv (lit "p.csv")
      (lit "Ticker,Shares" ++ LF :: lit "AAPL,10") /\
  parsePortfolioFile_csv (lit "p.csv")
    (lit "Ticker,Shares" ++ LF :: (lit " , " ++ [CR])) =
    parsePortfolioFile_csv (lit "p.csv") (lit "Ticker,Shares") /\
  parsePortfolioFile_csv (lit "p.csv")
    ((lit " , " ++ [CR]) ++ LF :: lit "AAPL,10") =
    parsePortfolioFile_csv (lit "p.csv") (lit "AAPL,10").
Proof.
  apply (blank_rows_add_nothing (lit "p.csv") (lit "Ticker,Shares")
           (lit " , " ++ [CR]) (lit "AAPL,10")).
  reflexivity.
Defined.

(** Two sends from the page as it opens: one that streams a delta, one
    with a file attached that the network rejects. *)
Lemma requests_carry_all_but_the_greeting_witness :
  exists rest,
    fold_left
      (fun shown s =>
         handleSend sample_Number_toString sample_null_read_message
           sample_not_primitive_message
           (clock s) shown (typed s) (attached s) false (network s))
      [mkSend sample_Date_now (lit "hi") None
         (FetchResponse 200
            (Some ([qlit "data: {'choices':[{'delta':{'content':'Hel'}}]}"
                      ++ [LF]],
                   EndOfStream)));
       mkSend (fun k => 1700000060000 + N.of_nat k) (lit "and this?")
         (Some (mkAttachment (lit "p.csv") (lit "AAPL | 10")))
         (FetchRejected (lit "Failed to fetch"))]
      [greeting] = greeting :: rest /\
    forall (Date_now : nat -> N) input att,
      allMessages Date_now
        (fold_left
           (fun shown s =>
              handleSend sample_Number_toString sample_null_read_message
                sample_not_primitive_message
                (clock s) shown (typed s) (attached s) false (network s))
           [mkSend sample_Date_now (lit "hi") None
              (FetchResponse 200
                 (Some ([qlit "data: {'choices':[{'delta':{'content':'Hel'}}]}"
                           ++ [LF]],
                        EndOfStream)));
            mkSend (fun k => 1700000060000 + N.of_nat k) (lit "and this?")
              (Some (mkAttachment (lit "p.csv") (lit "AAPL | 10")))
              (FetchRejected (lit "Failed to fetch"))]
           [greeting]) input att =
      map (fun m => (role m, content m)) rest
        ++ [(user, userContent input att)].
Proof.
  apply (requests_carry_all_but_the_greeting sample_Number_toString
           sample_null_read_message sample_not_primitive_message).
  repeat constructor; vm_compute; discriminate.
Defined.

(** Nine narratives: four on the inner ring, five on the outer one. *)
Lemma every_narrative_gets_a_place_witness :
  exists inner outer,
    layoutNodes 9 =
      ring_places 220 inner false ++ ring_places 450 outer true /\
    3 <= inner <= 6 /\ inner <= outer /\ inner + outer = 9.
Proof.
  apply (proj2 (proj2 every_narrative_gets_a_place) 9). reflexivity.
Defined.

(** A confidence of 85, and a confidence of zero. *)
Lemma minimap_colour_and_card_colour_witness :
  ((nodeColor (Finite (inject_Z 85)) = lit "#22c55e" /\
    bgGradient (Finite (inject_Z 85)) =
      lit "from-emerald-500/20 to-emerald-500/5" /\
    borderColor (Finite (inject_Z 85)) = lit "border-emerald-500/40" /\
    confTextColor (Finite (inject_Z 85)) = lit "text-emerald-400") \/
   (nodeColor (Finite (inject_Z 85)) = lit "#f59e0b" /\
    bgGradient (Finite (inject_Z 85)) =
      lit "from-amber-500/20 to-amber-500/5" /\
    borderColor (Finite (inject_Z 85)) = lit "border-amber-500/40" /\
    confTextColor (Finite (inject_Z 85)) = lit "text-amber-400") \/
   (nodeColor (Finite (inject_Z 85)) = lit "#ef4444" /\
    bgGradient (Finite (inject_Z 85)) = lit "from-red-500/20 to-red-500/5" /\
    borderColor (Finite (inject_Z 85)) = lit "border-red-500/40" /\
    confTextColor (Finite (inject_Z 85)) = lit "text-red-400")) /\
  (nodeColor (Finite (inject_Z 0)) = lit "#f59e0b" /\
   bgGradient (Finite (inject_Z 0)) = lit "from-red-500/20 to-red-500/5" /\
   borderColor (Finite (inject_Z 0)) = lit "border-red-500/40" /\
   confTextColor (Finite (inject_Z 0)) = lit "text-red-400").
Proof.
  split.
  - apply (proj1 (minimap_colour_and_card_colour (Finite (inject_Z 85)))).
    reflexivity.
  - apply (proj2 (minimap_colour_and_card_colour (Finite (inject_Z 0)))).
    reflexivity.
Defined.

End Samples.
